(** * Runtime type assertions of [h2o/utils/typechecks.py]

    A shallow embedding of the type predicates, the type matcher
    [_check_type], the call-site introspector [_retrieve_assert_arguments]
    and the assertion entry points, followed by the properties proved
    about them. *)

From Stdlib Require Import Bool Arith ZArith Lia List String Ascii.
From Stdlib Require Import Permutation.
Import ListNotations.

Local Open Scope string_scope.
Local Open Scope list_scope.

Set Implicit Arguments.
Set Warnings "-register-all".

(* ================================================================= *)
(** ** Regular expressions (the part of [re] used by [assert_matches]) *)

(** Patterns are kept as syntax trees; the textual pattern language of
    [re] is not parsed.  A pattern string without metacharacters is the
    concatenation of its characters ([re_literal]). *)
Inductive regex : Type :=
| ReEmpty                       (* matches nothing *)
| ReEps                         (* matches the empty string *)
| ReChr (c : ascii)
| ReAny                         (* [.] : any character but a newline *)
| ReCat (r1 r2 : regex)
| ReAlt (r1 r2 : regex)
| ReStar (r : regex).

Fixpoint re_literal (s : string) : regex :=
  match s with
  | EmptyString => ReEps
  | String c s' => ReCat (ReChr c) (re_literal s')
  end.

Definition newline_char : ascii := "010"%char.

Fixpoint nullable (r : regex) : bool :=
  match r with
  | ReEmpty => false
  | ReEps => true
  | ReChr _ => false
  | ReAny => false
  | ReCat r1 r2 => nullable r1 && nullable r2
  | ReAlt r1 r2 => nullable r1 || nullable r2
  | ReStar _ => true
  end.

Fixpoint deriv (c : ascii) (r : regex) : regex :=
  match r with
  | ReEmpty => ReEmpty
  | ReEps => ReEmpty
  | ReChr d => if Ascii.eqb c d then ReEps else ReEmpty
  | ReAny => if Ascii.eqb c newline_char then ReEmpty else ReEps
  | ReCat r1 r2 =>
      if nullable r1
      then ReAlt (ReCat (deriv c r1) r2) (deriv c r2)
      else ReCat (deriv c r1) r2
  | ReAlt r1 r2 => ReAlt (deriv c r1) (deriv c r2)
  | ReStar r1 => ReCat (deriv c r1) (ReStar r1)
  end.

(** [prefix_matches r s]: some prefix of [s] is matched by [r]; this is
    whether [re.match(r, s)] finds a match (the match is anchored at
    position 0 and may stop anywhere). *)
Fixpoint prefix_matches (r : regex) (s : string) : bool :=
  nullable r ||
  match s with
  | EmptyString => false
  | String c s' => prefix_matches (deriv c r) s'
  end.

(** The language of a pattern, as a relation: the reference semantics
    against which [prefix_matches] is justified. *)
Inductive re_lang : regex -> string -> Prop :=
| L_eps : re_lang ReEps ""
| L_chr c : re_lang (ReChr c) (String c "")
| L_any c : c <> newline_char -> re_lang ReAny (String c "")
| L_cat r1 r2 s1 s2 :
    re_lang r1 s1 -> re_lang r2 s2 -> re_lang (ReCat r1 r2) (s1 ++ s2)%string
| L_alt_l r1 r2 s : re_lang r1 s -> re_lang (ReAlt r1 r2) s
| L_alt_r r1 r2 s : re_lang r2 s -> re_lang (ReAlt r1 r2) s
| L_star_nil r : re_lang (ReStar r) ""
| L_star_cons r s1 s2 :
    re_lang r s1 -> re_lang (ReStar r) s2 -> re_lang (ReStar r) (s1 ++ s2)%string.

(** The match object returned by [re.match]: the attributes [re] and
    [string]; the span of the match is not modelled. *)
Record match_object : Type := MatchObject {
  m_re : regex;
  m_string : string
}.

Definition re_match (r : regex) (s : string) : option match_object :=
  if prefix_matches r s then Some (MatchObject r s) else None.

(* ================================================================= *)
(** ** Python values and types *)

(** Classes.  [TLong] and [TUnicode] are the Python 2 types [long] and
    [unicode]; [TUser name base] is a class defined by a [class]
    statement with a single base. *)
Inductive pytype : Type :=
| TObject | TType | TNoneType | TBool | TInt | TLong | TFloat
| TStr | TUnicode | TList | TTuple | TMatch
| TUser (name : string) (base : pytype).

Fixpoint pytype_eqb (t u : pytype) : bool :=
  match t, u with
  | TObject, TObject | TType, TType | TNoneType, TNoneType
  | TBool, TBool | TInt, TInt | TLong, TLong | TFloat, TFloat
  | TStr, TStr | TUnicode, TUnicode | TList, TList | TTuple, TTuple
  | TMatch, TMatch => true
  | TUser n b, TUser n' b' => String.eqb n n' && pytype_eqb b b'
  | _, _ => false
  end.

(** [issubclass t u]: [u] occurs in the method resolution order of [t].
    [bool] derives from [int]; every class derives from [object]. *)
Fixpoint issubclass (t u : pytype) : bool :=
  pytype_eqb t u ||
  match t with
  | TObject => false
  | TBool => pytype_eqb TInt u || pytype_eqb TObject u
  | TUser _ b => issubclass b u
  | _ => pytype_eqb TObject u
  end.

(** What calling a method of a user class gives: an answer, or an
    exception of the class named. *)
Inductive outcome : Type :=
| Answers (b : bool)
| Raises (error : string).

(** Values.  A float is kept as mantissa and exponent; only its class is
    looked at.  [VObj name base items] is an instance of the user class
    [TUser name base]: [items] are its elements when the class derives
    from a sequence class (a named tuple, say), and hold the number or
    string it extends when the class derives from a number or string
    class (none for the value the base class constructs by default);
    when the class derives from [type], the instance is itself a class,
    built by that metaclass.  [VClassOf meta check] is a class built by
    the metaclass [TUser meta TType] whose [__instancecheck__] gives
    [check] on every object.  [VRaising name error] is an instance of
    the user class [TUser name TObject] whose [__class__] property raises
    the exception named [error]. *)
Inductive value : Type :=
| VNone
| VBool (b : bool)
| VInt (z : Z)
| VLong (z : Z)
| VFloat (m e : Z)
| VStr (s : string)
| VUnicode (s : string)
| VList (l : list value)
| VTuple (l : list value)
| VType (t : pytype)
| VMatch (m : match_object)
| VObj (name : string) (base : pytype) (items : list value)
| VClassOf (meta : string) (instancecheck : outcome)
| VRaising (name : string) (error : string).

Definition type_of (v : value) : pytype :=
  match v with
  | VNone => TNoneType
  | VBool _ => TBool
  | VInt _ => TInt
  | VLong _ => TLong
  | VFloat _ _ => TFloat
  | VStr _ => TStr
  | VUnicode _ => TUnicode
  | VList _ => TList
  | VTuple _ => TTuple
  | VType _ => TType
  | VMatch _ => TMatch
  | VObj n b _ => TUser n b
  | VClassOf m _ => TUser m TType
  | VRaising n _ => TUser n TObject
  end.

(** [v is None] *)
Definition is_None (v : value) : bool :=
  match v with VNone => true | _ => false end.

(** [v is t] for a class [t] *)
Definition is_class (v : value) (t : pytype) : bool :=
  match v with VType u => pytype_eqb u t | _ => false end.

(** The elements a sequence value iterates over. *)
Definition items_of (v : value) : list value :=
  match v with
  | VList l | VTuple l | VObj _ _ l => l
  | _ => []
  end.

(** A class whose instances have the truth value of the number or
    string they extend. *)
Definition extends_scalar (t : pytype) : bool :=
  issubclass t TInt || issubclass t TLong || issubclass t TFloat
  || issubclass t TStr || issubclass t TUnicode.

(** Truth value of a value ([if not cond]): an instance of a user class
    is true unless the sequence, number or string class it derives from
    says otherwise; [__bool__] and [__len__] defined by user classes are
    not modelled. *)
Fixpoint truthy (v : value) : bool :=
  match v with
  | VNone => false
  | VBool b => b
  | VInt z | VLong z => negb (Z.eqb z 0)
  | VFloat m _ => negb (Z.eqb m 0)
  | VStr s | VUnicode s => negb (String.eqb s "")
  | VList l | VTuple l => match l with [] => false | _ => true end
  | VType _ | VMatch _ | VClassOf _ _ | VRaising _ _ => true
  | VObj _ b l =>
      if issubclass b TTuple || issubclass b TList
      then match l with [] => false | _ => true end
      else if extends_scalar b
           then match l with [] => false | p :: _ => truthy p end
           else true
  end.

(* ================================================================= *)
(** ** Exceptions and results *)

(** The text of an error message, as the format template and the
    arguments it is applied to (the rendering of [%r] and [!r] is not
    modelled). *)
Inductive message : Type :=
| MsgText (s : string)
| MsgInvalidArgument (stype : value)
    (* "Ivalid argument %r to _check_type()" *)
| MsgDidNotMatch (var : string) (val : value) (re : regex)
    (* "Argument `{var}` (= {val!r}) did not match /{regex}/" *)
| MsgNotSatisfy (var : string) (val : value) (expr : string)
    (* "Argument `{var}` (= {val!r}) does not satisfy the condition {expr}" *)
| MsgParseLevel
    (* "Parse error: parentheses level became negative" *).

Inductive exn : Type :=
| RuntimeError (msg : message)
| H2OTypeError (var_name : string) (var_value exp_type : value)
    (msg : option string) (skip_frames : Z)
| H2OValueError (msg : message) (var_name : option string)
    (skip_frames : Z)
| TypeError                     (* the builtin [TypeError] *)
| ValueError
| IOError (filename : string)
| AttributeError
| StopIteration
| AssertionError (msg : option message)
| IndexError
| TokenError
| IndentationError
| UserError (name : string)     (* an exception class of the caller *).

Inductive result (A : Type) : Type :=
| Ok (a : A)
| Raise (e : exn).

Arguments Ok {A} a.
Arguments Raise {A} e.

Definition rbind {A B} (r : result A) (k : A -> result B) : result B :=
  match r with
  | Ok a => k a
  | Raise e => Raise e
  end.

(** [any(f(x) for x in l)]: the generator is consumed up to the first
    true element, and an exception raised by [f] on the way escapes. *)
Fixpoint any_gen {A} (f : A -> result bool) (l : list A) : result bool :=
  match l with
  | [] => Ok false
  | x :: l' =>
      match f x with
      | Ok true => Ok true
      | Ok false => any_gen f l'
      | Raise e => Raise e
      end
  end.

(** The exception of the class named. *)
Definition raised (error : string) : exn :=
  if String.eqb error "AttributeError" then AttributeError
  else UserError error.

Definition outcome_result (o : outcome) : result bool :=
  match o with
  | Answers b => Ok b
  | Raises error => Raise (raised error)
  end.

(** [v.__class__] *)
Definition class_lookup (v : value) : result pytype :=
  match v with
  | VRaising _ error => Raise (raised error)
  | _ => Ok (type_of v)
  end.

(** The instance check of [type], as Python 3 has it: the type of the
    object decides when it derives from the class; otherwise the
    [__class__] attribute is looked up, an [AttributeError] of that
    lookup counts as a negative answer and any other exception
    escapes.  (Python 2 discards every exception of the lookup; the
    statements about an object whose lookup raises are about
    Python 3.) *)
Definition instance_of_class (v : value) (t : pytype) : result bool :=
  if issubclass (type_of v) t then Ok true
  else match class_lookup v with
       | Ok c => Ok (issubclass c t)
       | Raise AttributeError => Ok false
       | Raise e => Raise e
       end.

(** The same check against a class built by a metaclass that keeps the
    [__instancecheck__] of [type]: no object of the model has a type
    that derives from such a class. *)
Definition instance_of_foreign_class (v : value) : result bool :=
  match class_lookup v with
  | Ok _ => Ok false
  | Raise AttributeError => Ok false
  | Raise e => Raise e
  end.

(** [isinstance(v, classinfo)]: [classinfo] is a class or a (possibly
    nested) tuple of classes, searched left to right; anything else is a
    [TypeError]. *)
Fixpoint isinstance (v classinfo : value) {struct classinfo} : result bool :=
  let any_cls :=
    fix any_cls (l : list value) : result bool :=
      match l with
      | [] => Ok false
      | c :: l' =>
          match isinstance v c with
          | Ok true => Ok true
          | Ok false => any_cls l'
          | Raise e => Raise e
          end
      end in
  match classinfo with
  | VType t => instance_of_class v t
  | VClassOf _ check => outcome_result check
  | VTuple l => any_cls l
  | VObj _ b l =>
      if issubclass b TTuple then any_cls l
      else if issubclass b TType then instance_of_foreign_class v
           else Raise TypeError
  | _ => Raise TypeError
  end.

(** ["...%r..." % x] with one conversion in the format: a tuple operand
    is the argument list and must have exactly one element. *)
Definition percent_format1 (x : value) : result message :=
  if issubclass (type_of x) TTuple then
    match items_of x with
    | [y] => Ok (MsgInvalidArgument y)
    | _ => Raise TypeError
    end
  else Ok (MsgInvalidArgument x).

(* ================================================================= *)
(** ** Type predicates and the type matcher *)

Section Typechecks.

(** Whether the interpreter is Python 2 ([PY2] of
    [h2o.utils.compatibility]); [_native_unicode] and [_native_long] are
    then the classes [unicode] and [long]. *)
Variable PY2 : bool.

Definition _str_type : value :=
  if PY2 then VTuple [VType TStr; VType TUnicode] else VType TStr.

Definition _int_type : value :=
  if PY2 then VTuple [VType TInt; VType TLong] else VType TInt.

Definition _num_type : value :=
  if PY2 then VTuple [VType TInt; VType TLong; VType TFloat]
  else VTuple [VType TInt; VType TFloat].

Definition is_str (s : value) : result bool := isinstance s _str_type.

Definition is_int (i : value) : result bool := isinstance i _int_type.

Definition is_numeric (x : value) : result bool := isinstance x _num_type.


Fixpoint _check_type (s stype : value) (_nested : bool) {struct stype}
  : result bool :=
  if is_None stype then Ok (is_None s)
  else if is_class stype TStr then isinstance s _str_type
  else if is_class stype TInt then isinstance s _int_type
  else
    match isinstance stype (VType TType) with
    | Raise e => Raise e
    | Ok true => isinstance s stype
    | Ok false =>
        match isinstance stype (VType TTuple) with
        | Raise e => Raise e
        | Ok is_tuple =>
            if is_tuple && negb _nested then
              match stype with
              | VTuple l | VObj _ _ l =>
                  (fix any_alt (l : list value) : result bool :=
                     match l with
                     | [] => Ok false
                     | alt :: l' =>
                         match _check_type s alt true with
                         | Ok true => Ok true
                         | Ok false => any_alt l'
                         | Raise e => Raise e
                         end
                     end) l
              | _ => Ok false
              end
            else rbind (percent_format1 stype)
                       (fun m => Raise (RuntimeError m))
        end
    end.

End Typechecks.

(* ================================================================= *)
(** ** Strings *)

(** [s.startswith(p)] is [String.prefix p s].  [s in t] on strings is the
    substring test. *)
Fixpoint is_substring (s t : string) : bool :=
  String.prefix s t ||
  match t with
  | EmptyString => false
  | String _ t' => is_substring s t'
  end.

Definition is_space (c : ascii) : bool :=
  let n := nat_of_ascii c in
  (Nat.leb 9 n && Nat.leb n 13) || (Nat.leb 28 n && Nat.leb n 32).

Fixpoint lstrip (s : string) : string :=
  match s with
  | EmptyString => EmptyString
  | String c s' => if is_space c then lstrip s' else s
  end.

Fixpoint rstrip (s : string) : string :=
  match s with
  | EmptyString => EmptyString
  | String c s' =>
      let r := rstrip s' in
      if is_space c && String.eqb r "" then EmptyString else String c r
  end.

(** [s.strip()] *)
Definition strip (s : string) : string := rstrip (lstrip s).

(** [s.replace("\n", " ")] *)
Fixpoint replace_newlines (s : string) : string :=
  match s with
  | EmptyString => EmptyString
  | String c s' =>
      String (if Ascii.eqb c newline_char then " "%char else c)
             (replace_newlines s')
  end.

Fixpoint repeat_string (s : string) (n : nat) : string :=
  match n with
  | O => ""
  | S n' => (s ++ repeat_string s n')%string
  end.

Fixpoint string_drop (n : nat) (s : string) : string :=
  match n, s with
  | S n', String _ s' => string_drop n' s'
  | _, _ => s
  end.

(** Length of the longest prefix of [s] whose characters satisfy [p]. *)
Fixpoint span_len (p : ascii -> bool) (s : string) : nat :=
  match s with
  | EmptyString => 0
  | String c s' => if p c then S (span_len p s') else 0
  end.

(** The lines of a text as [readline] returns them, each with its line
    terminator (the last one possibly without). *)
Fixpoint split_lines_aux (cur : string) (s : string) : list string :=
  match s with
  | EmptyString => if String.eqb cur "" then [] else [cur]
  | String c s' =>
      if Ascii.eqb c newline_char
      then (cur ++ String c "")%string :: split_lines_aux "" s'
      else split_lines_aux (cur ++ String c "")%string s'
  end.

Definition split_lines (s : string) : list string := split_lines_aux "" s.

(* ================================================================= *)
(** ** Tokens ([tokenize]) *)

Inductive toktype : Type :=
| ENDMARKER | NAME | NUMBER | STRING | NEWLINE | INDENT | DEDENT
| OP | ERRORTOKEN | COMMENT | NL.

Definition toktype_eqb (a b : toktype) : bool :=
  match a, b with
  | ENDMARKER, ENDMARKER | NAME, NAME | NUMBER, NUMBER | STRING, STRING
  | NEWLINE, NEWLINE | INDENT, INDENT | DEDENT, DEDENT | OP, OP
  | ERRORTOKEN, ERRORTOKEN | COMMENT, COMMENT | NL, NL => true
  | _, _ => false
  end.

(** A token [ttt]: [ttt[0]] is [ttype], [ttt[1]] is [tstring], [ttt[2]]
    and [ttt[3]] are the (row, column) positions where it starts and
    ends.  The fifth field (the physical line) is never read. *)
Record token : Type := Token {
  ttype : toktype;
  tstring : string;
  tstart : nat * nat;
  tend : nat * nat
}.

(** A token generator: the tokens it yields and, when it ends by raising
    instead of by exhaustion, the exception. *)
Definition token_stream : Type := (list token * option exn)%type.

(* ================================================================= *)
(** ** The tokenizer ([tokenize.generate_tokens])

    The line-by-line tokenizer of the standard library ([Lib/tokenize.py]
    as it stands in CPython 3.8 to 3.11), on ASCII source text whose
    lines end in a line feed: names, numbers in every base with
    underscores, exponents and imaginary suffix, string literals with
    their prefixes, triple-quoted literals and literals continued over
    several lines, comments, operators and delimiters, brackets,
    indentation, backslash continuation, and the NEWLINE token supplied
    for a last line that has no line feed.  Non-ASCII identifiers and
    carriage returns are not modelled. *)

Definition is_digit (c : ascii) : bool :=
  let n := nat_of_ascii c in Nat.leb 48 n && Nat.leb n 57.

Definition is_alpha (c : ascii) : bool :=
  let n := nat_of_ascii c in
  (Nat.leb 65 n && Nat.leb n 90) || (Nat.leb 97 n && Nat.leb n 122)
  || Nat.eqb n 95.

Definition is_ident_char (c : ascii) : bool := is_alpha c || is_digit c.

(** [ \f\t] *)
Definition is_blank (c : ascii) : bool :=
  let n := nat_of_ascii c in Nat.eqb n 32 || Nat.eqb n 9 || Nat.eqb n 12.

Definition is_quote (c : ascii) : bool :=
  Ascii.eqb c "'"%char || Ascii.eqb c "034"%char.

Definition backslash : ascii := "\"%char.

Definition one_of (set : string) (c : ascii) : bool :=
  is_substring (String c "") set.

Definition is_hexdigit (c : ascii) : bool :=
  is_digit c || one_of "abcdefABCDEF" c.

Definition is_bindigit (c : ascii) : bool := one_of "01" c.

Definition is_octdigit (c : ascii) : bool := one_of "01234567" c.

Definition is_zero (c : ascii) : bool := Ascii.eqb c "0"%char.

(** The number patterns.  Each function gives the length of the match at
    the head of [s], 0 when the pattern does not match (no pattern
    matches the empty string). *)

(** Digits of the class [D], each optionally preceded by one underscore,
    after the first digit of a number. *)
Fixpoint digits_tail (D : ascii -> bool) (s : string) : nat :=
  match s with
  | String c s' =>
      if D c then S (digits_tail D s')
      else if Ascii.eqb c "_"%char then
        match s' with
        | String d s'' => if D d then S (S (digits_tail D s'')) else 0
        | EmptyString => 0
        end
      else 0
  | EmptyString => 0
  end.

(** A digit of the class [D] and the digits after it. *)
Definition digits (D : ascii -> bool) (s : string) : nat :=
  match s with
  | String c s' => if D c then S (digits_tail D s') else 0
  | EmptyString => 0
  end.

Definition follows (n : nat) (set : string) (s : string) : bool :=
  match String.get n s with
  | Some c => one_of set c
  | None => false
  end.

(** [Exponent]: e or E, an optional sign, digits. *)
Definition exponent (s : string) : nat :=
  if follows 0 "eE" s then
    let sign := if follows 1 "-+" s then 1 else 0 in
    match digits is_digit (string_drop (1 + sign) s) with
    | O => 0
    | n => 1 + sign + n
    end
  else 0.

(** [Pointfloat]: digits, a point and optional digits, or a point and
    digits; then an optional exponent. *)
Definition pointfloat (s : string) : nat :=
  let n := digits is_digit s in
  let mantissa :=
    if Nat.ltb 0 n && follows n "." s
    then n + 1 + digits is_digit (string_drop (n + 1) s)
    else if follows 0 "." s then
           match digits is_digit (string_drop 1 s) with
           | O => 0
           | m => 1 + m
           end
         else 0 in
  match mantissa with
  | O => 0
  | m => m + exponent (string_drop m s)
  end.

(** [Expfloat]: digits and an exponent. *)
Definition expfloat (s : string) : nat :=
  match digits is_digit s with
  | O => 0
  | n => match exponent (string_drop n s) with
         | O => 0
         | e => n + e
         end
  end.

Definition floatnumber (s : string) : nat :=
  match pointfloat s with
  | O => expfloat s
  | n => n
  end.

(** [Imagnumber]: digits or a [Floatnumber], then j or J. *)
Definition imagnumber (s : string) : nat :=
  let n := digits is_digit s in
  if Nat.ltb 0 n && follows n "jJ" s then n + 1
  else let f := floatnumber s in
       if Nat.ltb 0 f && follows f "jJ" s then f + 1 else 0.

(** [Hexnumber], [Binnumber] and [Octnumber]. *)
Definition radixnumber (s : string) : nat :=
  if follows 0 "0" s then
    let D := if follows 1 "xX" s then Some is_hexdigit
             else if follows 1 "bB" s then Some is_bindigit
             else if follows 1 "oO" s then Some is_octdigit
             else None in
    match D with
    | Some D => match digits_tail D (string_drop 2 s) with
                | O => 0
                | n => 2 + n
                end
    | None => 0
    end
  else 0.

(** [Decnumber]: zeros, or digits that do not start with a zero. *)
Definition decnumber (s : string) : nat :=
  match s with
  | String c s' =>
      if is_zero c then S (digits_tail is_zero s')
      else if is_digit c then S (digits_tail is_digit s')
      else 0
  | EmptyString => 0
  end.

(** [Number = group(Imagnumber, Floatnumber, Intnumber)] *)
Definition number_len (s : string) : nat :=
  match imagnumber s with
  | O => match floatnumber s with
         | O => match radixnumber s with
                | O => decnumber s
                | n => n
                end
         | n => n
         end
  | n => n
  end.

(** The operators and delimiters ([EXACT_TOKEN_TYPES]). *)
Definition operators3 : list string := ["**="; "..."; "//="; "<<="; ">>="].

Definition operators2 : list string :=
  ["!="; "%="; "&="; "**"; "*="; "+="; "-="; "->"; "//"; "/="; ":=";
   "<<"; "<="; "=="; ">="; ">>"; "@="; "^="; "|="].

Definition operators1 : string := "%&()*+,-./:;<=>@[]^{|}~".

(** Length of the operator or delimiter [s] starts with (0 if none). *)
Definition match_operator (s : string) : nat :=
  if existsb (fun o => String.prefix o s) operators3 then 3
  else if existsb (fun o => String.prefix o s) operators2 then 2
  else match s with
       | String c _ => if one_of operators1 c then 1 else 0
       | EmptyString => 0
       end.

Definition lower (c : ascii) : ascii :=
  let n := nat_of_ascii c in
  if Nat.leb 65 n && Nat.leb n 90 then ascii_of_nat (n + 32) else c.

(** [StringPrefix]: the number of letters of a string prefix at the head
    of [s] that a quote follows. *)
Definition string_prefix_len (s : string) : nat :=
  match s with
  | String a (String b rest) =>
      if is_quote b then
        if one_of "bruf" (lower a) then 1 else 0
      else
        match rest with
        | String q _ =>
            if is_quote q
               && existsb (String.eqb (String (lower a) (String (lower b) "")))
                          ["br"; "rb"; "fr"; "rf"]
            then 2 else 0
        | EmptyString => 0
        end
  | _ => 0
  end.

(** The rest of a one-line literal opened by [q]: its length and whether
    it ends in a backslash and line feed instead of the closing quote
    ([ContStr]). *)
Fixpoint single_body (q : ascii) (s : string) : option (nat * bool) :=
  match s with
  | EmptyString => None
  | String c s' =>
      if Ascii.eqb c q then Some (1, false)
      else if Ascii.eqb c newline_char then None
      else if Ascii.eqb c backslash then
        match s' with
        | EmptyString => None
        | String d s'' =>
            if Ascii.eqb d newline_char then Some (2, true)
            else option_map (fun r => (S (S (fst r)), snd r))
                            (single_body q s'')
        end
      else option_map (fun r => (S (fst r), snd r)) (single_body q s')
  end.

(** Where a literal continued from an earlier line ends ([Single],
    [Double]): the length up to and including the closing quote. *)
Fixpoint single_end (q : ascii) (s : string) : option nat :=
  match s with
  | EmptyString => None
  | String c s' =>
      if Ascii.eqb c q then Some 1
      else if Ascii.eqb c backslash then
        match s' with
        | EmptyString => None
        | String d s'' =>
            if Ascii.eqb d newline_char then None
            else option_map (fun n => S (S n)) (single_end q s'')
        end
      else option_map S (single_end q s')
  end.

(** Where a triple-quoted literal ends ([Single3], [Double3]). *)
Fixpoint triple_end (q : ascii) (s : string) : option nat :=
  match s with
  | EmptyString => None
  | String c s' =>
      if Ascii.eqb c backslash then
        match s' with
        | EmptyString => None
        | String d s'' =>
            if Ascii.eqb d newline_char then None
            else option_map (fun n => S (S n)) (triple_end q s'')
        end
      else if Ascii.eqb c q && String.prefix (String q (String q "")) s'
           then Some 3
           else option_map S (triple_end q s')
  end.

(** What the pseudo-token pattern matches after the leading blanks. *)
Inductive lexeme : Type :=
| LxNone                         (* no match *)
| LxEmpty                        (* the end of the line *)
| LxCont (len : nat)             (* backslash and newline *)
| LxTok (ty : toktype) (len : nat)
| LxOpen (q : ascii) (triple : bool).
                                 (* a literal that goes on on the next line *)

(** A string literal: [k] prefix letters, the quote [q], then [body]. *)
Definition string_lexeme (k : nat) (q : ascii) (body : string)
    (otherwise : lexeme) : lexeme :=
  if String.prefix (String q (String q "")) body then
    match triple_end q (string_drop 2 body) with
    | Some n => LxTok STRING (k + 3 + n)
    | None => LxOpen q true
    end
  else
    match single_body q body with
    | Some (n, false) => LxTok STRING (k + 1 + n)
    | Some (_, true) => LxOpen q false
    | None => otherwise
    end.

Definition lexeme_at (s : string) : lexeme :=
  match s with
  | EmptyString => LxEmpty
  | String c rest =>
      if Ascii.eqb c backslash then
        if String.prefix (String newline_char "") rest then LxCont 2
        else LxNone
      else if Ascii.eqb c "#"%char then
        LxTok COMMENT
              (S (span_len (fun d => negb (Ascii.eqb d newline_char)) rest))
      else if Ascii.eqb c newline_char then LxTok NEWLINE 1
      else if is_quote c then string_lexeme 0 c rest LxNone
      else
        match number_len s with
        | S n => LxTok NUMBER (S n)
        | O =>
            if is_alpha c then
              let name := LxTok NAME (span_len is_ident_char s) in
              let k := string_prefix_len s in
              match k, string_drop k s with
              | S _, String q body => string_lexeme k q body name
              | _, _ => name
              end
            else match match_operator s with
                 | O => LxNone
                 | n => LxTok OP n
                 end
        end
  end.

(** A literal left open at the end of a line: [contstr], [strstart], the
    quote that selects [endprog], and whether it is triple-quoted. *)
Definition open_string : Type := (string * (nat * nat) * ascii * bool)%type.

(** The inner loop over one physical line, from column [pos]; [skip]
    counts the characters of [s] already consumed by the previous match.
    Returns the tokens, the bracket level, whether the line ends in a
    backslash continuation, and the literal left open, if any. *)
Fixpoint lex_line (lnum : nat) (s : string) (pos skip : nat)
    (parenlev : Z) (continued : bool) {struct s}
  : list token * Z * bool * option open_string :=
  match s with
  | EmptyString => ([], parenlev, continued, None)
  | String c s' =>
      match skip with
      | S k => lex_line lnum s' (S pos) k parenlev continued
      | O =>
          let ws := span_len is_blank s in
          let start := pos + ws in
          match lexeme_at (string_drop ws s) with
          | LxNone =>
              let '(ts, pl, ct, op) :=
                lex_line lnum s' (S pos) 0 parenlev continued in
              (Token ERRORTOKEN (String c "") (lnum, pos) (lnum, S pos) :: ts,
               pl, ct, op)
          | LxEmpty => lex_line lnum s' (S pos) (pred ws) parenlev continued
          | LxCont len =>
              lex_line lnum s' (S pos) (pred (ws + len)) parenlev true
          | LxOpen q triple =>
              ([], parenlev, continued,
               Some (string_drop ws s, (lnum, start), q, triple))
          | LxTok ty len =>
              let text := String.substring ws len s in
              let ty' :=
                match ty with
                | NEWLINE => if (0 <? parenlev)%Z then NL else NEWLINE
                | _ => ty
                end in
              let parenlev' :=
                match ty, text with
                | OP, String i _ =>
                    if one_of "([{" i
                    then (parenlev + 1)%Z
                    else if one_of ")]}" i
                         then (parenlev - 1)%Z
                         else parenlev
                | _, _ => parenlev
                end in
              let '(ts, pl, ct, op) :=
                lex_line lnum s' (S pos) (pred (ws + len)) parenlev'
                         continued in
              (Token ty' text (lnum, start) (lnum, start + len) :: ts,
               pl, ct, op)
          end
      end
  end.

(** Leading blanks of a line: the indentation column (tabs go to the
    next multiple of 8, a form feed resets it) and the position. *)
Fixpoint measure_indent (s : string) (column pos : nat) : nat * nat :=
  match s with
  | EmptyString => (column, pos)
  | String c s' =>
      if Ascii.eqb c " "%char then measure_indent s' (S column) (S pos)
      else if Ascii.eqb c "009"%char
           then measure_indent s' ((column / 8 + 1) * 8) (S pos)
           else if Ascii.eqb c "012"%char
                then measure_indent s' 0 (S pos)
                else (column, pos)
  end.

(** [while column < indents[-1]]: pop and yield a DEDENT per level; the
    indentation stack is kept with its top first. *)
Fixpoint dedent_loop (lnum pos column : nat) (indents : list nat)
  : list token * list nat * option exn :=
  match indents with
  | [] => ([], [], Some IndexError)
  | top :: below =>
      if Nat.ltb column top then
        if existsb (Nat.eqb column) indents then
          let '(ts, ind, e) := dedent_loop lnum pos column below in
          (Token DEDENT "" (lnum, pos) (lnum, pos) :: ts, ind, e)
        else ([], indents, Some IndentationError)
      else ([], indents, None)
  end.

Definition prepend (ts : list token) (g : token_stream) : token_stream :=
  (ts ++ fst g, snd g).

(** After the loop: the NEWLINE supplied when the last line read has no
    line feed and is not a comment, a DEDENT per open level, and the end
    marker. *)
Definition end_of_input (lnum : nat) (indents : list nat)
    (last_line : string) : token_stream :=
  ((if negb (String.eqb last_line "")
       && negb (String.eqb
                  (string_drop (String.length last_line - 1) last_line)
                  (String newline_char ""))
       && negb (String.prefix "#" (strip last_line))
    then [Token NEWLINE "" (lnum - 1, String.length last_line)
                (lnum - 1, String.length last_line + 1)]
    else [])
     ++ map (fun _ => Token DEDENT "" (lnum, 0) (lnum, 0)) (tl indents)
     ++ [Token ENDMARKER "" (lnum, 0) (lnum, 0)], None).

(** The state the loop carries from line to line. *)
Record lexer_state : Type := LexerState {
  parenlev : Z;
  continued : bool;
  indents : list nat;
  contstr : option open_string;
  needcont : bool
}.

(** The state after the inner loop has run over a line. *)
Definition after_line (pl : Z) (ct : bool) (ind : list nat)
    (op : option open_string) (nc : bool) : lexer_state :=
  LexerState pl ct ind op
             (match op with
              | Some (_, _, _, false) => true
              | _ => nc
              end).

Fixpoint tokenize_loop (lines : list string) (lnum : nat)
    (st : lexer_state) (last_line : string) : token_stream :=
  match lines with
  | [] =>
      match contstr st with
      | Some _ => ([], Some TokenError)
      | None =>
          if (parenlev st =? 0)%Z && negb (continued st)
          then end_of_input lnum (indents st) last_line
          else ([], Some TokenError)
      end
  | line :: rest =>
      match contstr st with
      | Some (text, strstart, q, triple) =>
          match (if triple then triple_end q line else single_end q line) with
          | Some e =>
              let '(ts, pl, ct, op) :=
                lex_line lnum line 0 e (parenlev st) (continued st) in
              prepend
                (Token STRING (text ++ String.substring 0 e line)%string
                       strstart (lnum, e) :: ts)
                (tokenize_loop rest (S lnum)
                               (after_line pl ct (indents st) op false) line)
          | None =>
              if needcont st
                 && negb (String.eqb
                            (string_drop (String.length line - 2) line)
                            (String backslash (String newline_char "")))
              then
                prepend
                  [Token ERRORTOKEN (text ++ line)%string strstart
                         (lnum, String.length line)]
                  (tokenize_loop rest (S lnum)
                                 (LexerState (parenlev st) (continued st)
                                             (indents st) None (needcont st))
                                 line)
              else
                tokenize_loop rest (S lnum)
                              (LexerState (parenlev st) (continued st)
                                          (indents st)
                                          (Some ((text ++ line)%string,
                                                 strstart, q, triple))
                                          (needcont st))
                              line
          end
      | None =>
          if (parenlev st =? 0)%Z && negb (continued st) then
            let '(column, pos) := measure_indent line 0 0 in
            if Nat.eqb pos (String.length line)
            then end_of_input lnum (indents st) last_line
            else
              match string_drop pos line with
              | String "#"%char _ =>
                  let n :=
                    span_len (fun d => negb (Ascii.eqb d newline_char))
                             (string_drop pos line) in
                  prepend
                    [Token COMMENT (String.substring pos n line)
                           (lnum, pos) (lnum, pos + n);
                     Token NL (string_drop (pos + n) line)
                           (lnum, pos + n) (lnum, String.length line)]
                    (tokenize_loop rest (S lnum) st line)
              | String "010"%char _ =>
                  prepend
                    [Token NL (string_drop pos line)
                           (lnum, pos) (lnum, String.length line)]
                    (tokenize_loop rest (S lnum) st line)
              | _ =>
                  let '(its, indents1) :=
                    if Nat.ltb (hd 0 (indents st)) column
                    then ([Token INDENT (String.substring 0 pos line)
                                 (lnum, 0) (lnum, pos)],
                          column :: indents st)
                    else ([], indents st) in
                  let '(dts, indents2, e) :=
                    dedent_loop lnum pos column indents1 in
                  match e with
                  | Some ex => (its ++ dts, Some ex)
                  | None =>
                      let '(ts, pl, ct, op) :=
                        lex_line lnum (string_drop pos line) pos 0
                                 (parenlev st) false in
                      prepend (its ++ dts ++ ts)
                              (tokenize_loop rest (S lnum)
                                 (after_line pl ct indents2 op (needcont st))
                                 line)
                  end
              end
          else
            let '(ts, pl, ct, op) :=
              lex_line lnum line 0 0 (parenlev st) false in
            prepend ts
                    (tokenize_loop rest (S lnum)
                       (after_line pl ct (indents st) op (needcont st)) line)
      end
  end.

(** [tokenize.generate_tokens(readline)] on the lines [readline] will
    return. *)
Definition generate_tokens (lines : list string) : token_stream :=
  tokenize_loop lines 1 (LexerState 0 false [0] None false) "".

(* ================================================================= *)
(** ** [tokenize.untokenize] on full tokens *)

Definition pos_before (a b : nat * nat) : bool :=
  Nat.ltb (fst a) (fst b) || (Nat.eqb (fst a) (fst b) && Nat.ltb (snd a) (snd b)).

(** [Untokenizer.add_whitespace]: the text put before a token that
    starts at [start], and the column reached by a row change. *)
Definition add_whitespace (start prev : nat * nat) : result string :=
  if pos_before start prev then Raise ValueError
  else
    let row_offset := fst start - fst prev in
    let prev_col := match row_offset with O => snd prev | _ => 0 end in
    Ok (repeat_string (String backslash (String newline_char "")) row_offset
        ++ repeat_string " " (snd start - prev_col))%string.

Definition is_newline_type (ty : toktype) : bool :=
  match ty with NEWLINE | NL => true | _ => false end.

(** [Untokenizer.untokenize]; [indents] is kept with its last element
    first. *)
Fixpoint untokenize_loop (ts : list token) (prev : nat * nat)
    (indents : list string) (startline : bool) : result string :=
  match ts with
  | [] => Ok ""
  | t :: ts' =>
      match ttype t with
      | ENDMARKER => Ok ""
      | INDENT => untokenize_loop ts' prev (tstring t :: indents) startline
      | DEDENT =>
          match indents with
          | [] => Raise IndexError
          | _ :: indents' => untokenize_loop ts' (tend t) indents' startline
          end
      | ty =>
          let '(pre, prev1, startline1) :=
            if is_newline_type ty then ("", prev, true)
            else if startline then
              match indents with
              | indent :: _ =>
                  if Nat.leb (String.length indent) (snd (tstart t))
                  then (indent, (fst prev, String.length indent), false)
                  else ("", prev, false)
              | [] => ("", prev, startline)
              end
            else ("", prev, startline) in
          rbind (add_whitespace (tstart t) prev1) (fun ws =>
          let prev2 :=
            if is_newline_type ty then (S (fst (tend t)), 0) else tend t in
          rbind (untokenize_loop ts' prev2 indents startline1) (fun rest =>
          Ok (pre ++ ws ++ tstring t ++ rest)%string))
      end
  end.

Definition untokenize (ts : list token) : result string :=
  untokenize_loop ts (1, 0) [] false.

(* ================================================================= *)
(** ** The call-site introspector *)

Definition is_op (t : token) (s : string) : bool :=
  toktype_eqb (ttype t) OP && String.eqb (tstring t) s.

(** [ttt[0] == tokenize.OP and ttt[1] in "([{"] *)
Definition opens_bracket (t : token) : bool :=
  toktype_eqb (ttype t) OP && is_substring (tstring t) "([{".

Definition closes_bracket (t : token) : bool :=
  toktype_eqb (ttype t) OP && is_substring (tstring t) ")]}".

(** [args_tokens[-1].append(ttt)] *)
Fixpoint append_to_last (args_tokens : list (list token)) (t : token)
  : result (list (list token)) :=
  match args_tokens with
  | [] => Raise IndexError
  | [a] => Ok [a ++ [t]]
  | a :: rest => rbind (append_to_last rest t) (fun r => Ok (a :: r))
  end.

(** The [for ttt in g] loop with its three steps; the loop ends at the
    [break], or when the generator is exhausted, or by the exception
    [tail] the generator ends with. *)
Fixpoint scan_tokens (g : list token) (tail : option exn) (step : nat)
    (args_tokens : list (list token)) (level : Z)
  : result (list (list token)) :=
  match g with
  | [] =>
      match tail with
      | Some e => Raise e
      | None => Ok args_tokens
      end
  | ttt :: g' =>
      match step with
      | 0 =>
          if negb (toktype_eqb (ttype ttt) NAME)
          then scan_tokens g' tail 0 args_tokens level
          else if negb (String.prefix "assert_" (tstring ttt))
               then scan_tokens g' tail 0 args_tokens level
               else scan_tokens g' tail 1 args_tokens level
      | 1 =>
          if is_op ttt "("
          then scan_tokens g' tail 2 (args_tokens ++ [[]]) level
          else Raise (AssertionError None)
      | 2 =>
          if (level =? 0)%Z && is_op ttt ","
          then scan_tokens g' tail 2 (args_tokens ++ [[]]) level
          else if (level =? 0)%Z && is_op ttt ")"
               then Ok args_tokens
               else
                 let level1 :=
                   if opens_bracket ttt then (level + 1)%Z else level in
                 let level2 :=
                   if closes_bracket ttt then (level1 - 1)%Z else level1 in
                 if (level2 <? 0)%Z
                 then Raise (AssertionError (Some MsgParseLevel))
                 else rbind (append_to_last args_tokens ttt) (fun at' =>
                      scan_tokens g' tail 2 at' level2)
      | _ => scan_tokens g' tail step args_tokens level
      end
  end.

(** [[f(at) for at in args_tokens]] *)
Fixpoint map_result {A B} (f : A -> result B) (l : list A)
  : result (list B) :=
  match l with
  | [] => Ok []
  | x :: l' =>
      rbind (f x) (fun y => rbind (map_result f l') (fun ys => Ok (y :: ys)))
  end.

Definition arg_text (at' : list token) : result string :=
  rbind (untokenize at') (fun s => Ok (replace_newlines (strip s))).

(** The tokenizing part of [_retrieve_assert_arguments], on the token
    generator of the caller's source from the call line on. *)
Definition extract_arguments (g : token_stream) : result (list string) :=
  rbind (scan_tokens (fst g) (snd g) 0 [] 0) (map_result arg_text).

(** A stack frame: [f_code.co_filename], [f_code.co_name], [f_lineno];
    [f_back] is the next frame of the list. *)
Record frame : Type := Frame {
  co_filename : string;
  co_name : string;
  f_lineno : nat
}.

(** The environment: the readable files with their text, and the names
    of the files [open] has been called on, latest first. *)
Record world : Type := World {
  files : string -> option string;
  opened : list string
}.

(** Computations that may raise and may touch the file system. *)
Definition M (A : Type) : Type := world -> result A * world.

Definition ret {A} (a : A) : M A := fun w => (Ok a, w).

Definition raise {A} (e : exn) : M A := fun w => (Raise e, w).

Definition bind {A B} (m : M A) (k : A -> M B) : M B :=
  fun w =>
    match m w with
    | (Ok a, w') => k a w'
    | (Raise e, w') => (Raise e, w')
    end.

Definition lift {A} (r : result A) : M A := fun w => (r, w).

Notation "x <- m ;; k" := (bind m (fun x => k))
  (at level 61, m at next level, right associativity).

(** [open(name, "r")], returning the lines of the file. *)
Definition open_file (name : string) : M (list string) :=
  fun w =>
    let w' := World (files w) (name :: opened w) in
    match files w name with
    | Some text => (Ok (split_lines text), w')
    | None => (Raise (IOError name), w')
    end.

(** [for i in range(n): next(f)] *)
Fixpoint skip_lines (n : nat) (lines : list string) : result (list string) :=
  match n with
  | O => Ok lines
  | S n' =>
      match lines with
      | [] => Raise StopIteration
      | _ :: rest => skip_lines n' rest
      end
  end.

Definition this_filename : string := "h2o/utils/typechecks.py".

(** [while fr is not None and fr.f_code.co_filename == this_filename:
    fr = fr.f_back] *)
Fixpoint walk_up (stack : list frame) : option frame :=
  match stack with
  | [] => None
  | fr :: back =>
      if String.eqb (co_filename fr) this_filename then walk_up back
      else Some fr
  end.

(** Every function below takes the stack of its caller, innermost frame
    first, and runs in a frame of this file pushed on it. *)
Definition _retrieve_assert_arguments (stack : list frame)
  : M (list string) :=
  let tb_frame := Frame this_filename "_retrieve_assert_arguments" 174 in
  match walk_up (tb_frame :: stack) with
  | None => raise AttributeError
  | Some fr =>
      f <- open_file (co_filename fr) ;;
      f' <- lift (skip_lines (f_lineno fr - 1) f) ;;
      lift (extract_arguments (generate_tokens f'))
  end.

(** [l[0]] *)
Definition item0 {A} (l : list A) : result A :=
  match l with
  | [] => Raise IndexError
  | x :: _ => Ok x
  end.

(** [a, b = l] *)
Definition unpack2 {A} (l : list A) : result (A * A) :=
  match l with
  | [a; b] => Ok (a, b)
  | _ => Raise ValueError
  end.

(* ================================================================= *)
(** ** The assertion entry points *)

Section Assertions.

Variable PY2 : bool.

Definition assert_is_type (stack : list frame) (var expected_type : value)
    (message : option string) (skip_frames : Z) : M unit :=
  ok <- lift (_check_type PY2 var expected_type false) ;;
  if ok then ret tt
  else
    args <- _retrieve_assert_arguments
              (Frame this_filename "assert_is_type" 78 :: stack) ;;
    vname <- lift (item0 args) ;;
    raise (H2OTypeError vname var expected_type message skip_frames).

Definition assert_is_none (stack : list frame) (s : value) : M unit :=
  assert_is_type (Frame this_filename "assert_is_none" 86 :: stack)
                 s VNone None 2.

Definition assert_is_str (stack : list frame) (s : value) : M unit :=
  assert_is_type (Frame this_filename "assert_is_str" 90 :: stack)
                 s (VType TStr) None 2.

Definition assert_maybe_str (stack : list frame) (s : value) : M unit :=
  assert_is_type (Frame this_filename "assert_maybe_str" 94 :: stack)
                 s (VTuple [VType TStr; VNone]) None 2.

Definition assert_is_int (stack : list frame) (x : value) : M unit :=
  assert_is_type (Frame this_filename "assert_is_int" 98 :: stack)
                 x (VType TInt) None 2.

Definition assert_maybe_int (stack : list frame) (x : value) : M unit :=
  assert_is_type (Frame this_filename "assert_maybe_int" 102 :: stack)
                 x (VTuple [VType TInt; VNone]) None 2.

Definition assert_is_bool (stack : list frame) (b : value) : M unit :=
  assert_is_type (Frame this_filename "assert_is_bool" 106 :: stack)
                 b (VType TBool) None 2.

Definition assert_is_numeric (stack : list frame) (x : value) : M unit :=
  assert_is_type (Frame this_filename "assert_is_numeric" 110 :: stack)
                 x (VTuple [VType TInt; VType TFloat]) None 2.

Definition assert_maybe_numeric (stack : list frame) (x : value) : M unit :=
  assert_is_type (Frame this_filename "assert_maybe_numeric" 114 :: stack)
                 x (VTuple [VType TInt; VType TFloat; VNone]) None 2.

End Assertions.

(** The text of a string, or of an instance of a class that derives
    from a string class. *)
Fixpoint text_of (v : value) : option string :=
  match v with
  | VStr s | VUnicode s => Some s
  | VObj _ b l =>
      if issubclass b TStr || issubclass b TUnicode
      then match l with [] => Some "" | p :: _ => text_of p end
      else None
  | _ => None
  end.

(** [re.match(regex, v)] wants a string. *)
Definition assert_matches (stack : list frame) (v : value) (regex : regex)
  : M value :=
  match text_of v with
  | Some s =>
      match re_match regex s with
      | None =>
          args <- _retrieve_assert_arguments
                    (Frame this_filename "assert_matches" 132 :: stack) ;;
          vn <- lift (item0 args) ;;
          raise (H2OValueError (MsgDidNotMatch vn v regex) (Some vn) 1)
      | Some m => ret (VMatch m)
      end
  | None => raise TypeError
  end.

Definition assert_satisfies (stack : list frame) (v cond : value) : M unit :=
  if negb (truthy cond) then
    args <- _retrieve_assert_arguments
              (Frame this_filename "assert_satisfies" 146 :: stack) ;;
    p <- lift (unpack2 args) ;;
    raise (H2OValueError (MsgNotSatisfy (fst p) v (snd p)) (Some (fst p)) 1)
  else ret tt.

(* ================================================================= *)
(** ** Vocabulary of the properties *)

(** A one-level type specification: [None] or a class. *)
Definition is_atomic (spec : value) : bool :=
  match spec with
  | VNone | VType _ => true
  | _ => false
  end.

(** Whether a value conforms to a one-level specification: [None] is
    matched by [None] alone, [str] and [int] also by the Python 2 classes
    [unicode] and [long], any other class by its instances. *)
Definition conforms (PY2 : bool) (s spec : value) : bool :=
  match spec with
  | VNone => is_None s
  | VType TStr =>
      issubclass (type_of s) TStr || (PY2 && issubclass (type_of s) TUnicode)
  | VType TInt =>
      issubclass (type_of s) TInt || (PY2 && issubclass (type_of s) TLong)
  | VType t => issubclass (type_of s) t
  | _ => false
  end.

(** A value whose [__class__] attribute is its type, as for every
    object that does not define it anew. *)
Definition plain (v : value) : bool :=
  match v with
  | VRaising _ _ => false
  | _ => true
  end.

(** A one-level type specification in the wide sense: [None], or an
    instance of [type], built by [type] itself or by a metaclass. *)
Definition is_one_level (spec : value) : bool :=
  is_None spec || issubclass (type_of spec) TType.

(** A specification that is neither [None], nor a class, nor a tuple. *)
Definition malformed (spec : value) : bool :=
  negb (is_None spec)
  && negb (issubclass (type_of spec) TType)
  && negb (issubclass (type_of spec) TTuple)
  && plain spec.

(** An interactive session: the caller's frame names the pseudo-file
    [<stdin>], which no [open] can read. *)
Definition interactive_stack : list frame := [Frame "<stdin>" "<module>" 1].

Definition interactive_world : world := World (fun _ => None) [].

(** A script [script.py] with the given text, whose top-level code makes
    the call on line [line]. *)
Definition script_stack (line : nat) : list frame :=
  [Frame "script.py" "<module>" line].

Definition script_world (text : string) : world :=
  World (fun name => if String.eqb name "script.py" then Some text else None)
        [].

(** A physical line of source text with its line terminator. *)
Definition source_line (s : string) : string :=
  (s ++ String newline_char "")%string.

(** The call site is readable: the file of the first frame outside this
    file can be opened, and from the reported line on it holds [lines]. *)
Definition call_site (stack : list frame) (w : world) (lines : list string)
  : Prop :=
  exists fr text,
    walk_up stack = Some fr /\
    files w (co_filename fr) = Some text /\
    skip_lines (f_lineno fr - 1) (split_lines text) = Ok lines.

(** The bracket depth after a token, from the depth before it. *)
Definition next_level (level : Z) (t : token) : Z :=
  (level + (if opens_bracket t then 1 else 0)
         - (if closes_bracket t then 1 else 0))%Z.

(** [is_argument level a]: starting at bracket depth [level], the tokens
    [a] hold no comma and no closing parenthesis at depth 0, never close
    more brackets than are open, and end at depth 0. *)
Fixpoint is_argument (level : Z) (a : list token) : bool :=
  match a with
  | [] => (level =? 0)%Z
  | t :: a' =>
      negb ((level =? 0)%Z && (is_op t "," || is_op t ")"))
      && (0 <=? next_level level t)%Z
      && is_argument (next_level level t) a'
  end.

(** The tokens of an argument list: a first argument, then commas each
    followed by a further argument. *)
Definition join_arguments (first : list token)
    (more : list (token * list token)) : list token :=
  first ++ flat_map (fun p => fst p :: snd p) more.

(** A name token of an assertion function. *)
Definition is_assert_name (t : token) : bool :=
  toktype_eqb (ttype t) NAME && String.prefix "assert_" (tstring t).

(* ================================================================= *)
(** ** [assert_true] *)

Section AssertTrue.

(** [H2OValueError(message)] leaves [var_name] and [skip_frames] to the
    defaults of the constructor, which [h2o.exceptions] declares. *)
Variable default_var_name : option string.
Variable default_skip_frames : Z.

Definition assert_true (cond : value) (message : string) : M unit :=
  if negb (truthy cond)
  then raise (H2OValueError (MsgText message) default_var_name
                            default_skip_frames)
  else ret tt.

End AssertTrue.

(* ================================================================= *)
(** ** Further vocabulary *)

Fixpoint string_forallb (p : ascii -> bool) (s : string) : bool :=
  match s with
  | EmptyString => true
  | String c s' => p c && string_forallb p s'
  end.

Definition first_char (s : string) : option ascii :=
  match s with
  | EmptyString => None
  | String c _ => Some c
  end.

Fixpoint last_char (s : string) : option ascii :=
  match s with
  | EmptyString => None
  | String c EmptyString => Some c
  | String _ s' => last_char s'
  end.

(** A text without newline whose two ends are not white space. *)
Definition is_trimmed_line (s : string) : bool :=
  string_forallb (fun c => negb (Ascii.eqb c newline_char)) s
  && match first_char s with Some c => negb (is_space c) | None => true end
  && match last_char s with Some c => negb (is_space c) | None => true end.

(** A frame of this file. *)
Definition is_own_frame (fr : frame) : bool :=
  String.eqb (co_filename fr) this_filename.

(** The environment after a call differs from the one before by at most
    one [open], and holds the same files. *)
Definition opens_at_most_one (w w' : world) : Prop :=
  files w' = files w /\
  (opened w' = opened w \/ exists name, opened w' = name :: opened w).

(* ================================================================= *)
(** * Properties *)

Unset Implicit Arguments.

(** ** Classes and [isinstance] *)

Lemma pytype_eqb_refl (t : pytype) : pytype_eqb t t = true.
Proof.
  induction t; simpl; auto.
  now rewrite String.eqb_refl, IHt.
Qed.

Lemma pytype_eqb_eq (t u : pytype) : pytype_eqb t u = true <-> t = u.
Proof.
  split; [| intros ->; apply pytype_eqb_refl].
  revert u; induction t; destruct u; simpl; try discriminate; auto.
  intros H; apply andb_true_iff in H as [Hn Hb].
  apply String.eqb_eq in Hn; apply IHt in Hb; congruence.
Qed.

Lemma issubclass_refl (t : pytype) : issubclass t t = true.
Proof. destruct t; simpl; auto. now rewrite String.eqb_refl, pytype_eqb_refl. Qed.

Lemma any_gen_ok {A} (f : A -> result bool) (g : A -> bool) (l : list A) :
  (forall x, In x l -> f x = Ok (g x)) -> any_gen f l = Ok (existsb g l).
Proof.
  induction l as [| x l IH]; intros H; simpl; [reflexivity |].
  rewrite (H x (or_introl eq_refl)).
  destruct (g x); simpl; [reflexivity |].
  apply IH; intros y Hy; apply H; now right.
Qed.

Lemma class_lookup_plain (v : value) :
  plain v = true -> class_lookup v = Ok (type_of v).
Proof. destruct v; try discriminate; reflexivity. Qed.

Lemma instance_of_class_plain (v : value) (t : pytype) :
  plain v = true -> instance_of_class v t = Ok (issubclass (type_of v) t).
Proof.
  intros H; unfold instance_of_class; rewrite (class_lookup_plain v H).
  now destruct (issubclass (type_of v) t).
Qed.

(** The instance check answers [True] exactly when the type of the
    object derives from the class. *)
Lemma instance_of_class_true (v : value) (t : pytype) :
  instance_of_class v t = Ok true <-> issubclass (type_of v) t = true.
Proof.
  unfold instance_of_class.
  destruct (issubclass (type_of v) t) eqn:E; [split; reflexivity |].
  destruct v; cbn [class_lookup]; try (rewrite E; split; discriminate).
  unfold raised; destruct (String.eqb error "AttributeError");
    split; discriminate.
Qed.

(** On an object whose [__class__] cannot be looked up, the check of a
    class its type does not derive from ends with the exception of the
    lookup, or negatively when that is an [AttributeError]. *)
Lemma instance_of_class_raising (name error : string) (t : pytype) :
  issubclass (TUser name TObject) t = false ->
  instance_of_class (VRaising name error) t
  = if String.eqb error "AttributeError" then Ok false
    else Raise (UserError error).
Proof.
  intros H; unfold instance_of_class; cbn [type_of class_lookup].
  rewrite H; unfold raised.
  now destruct (String.eqb error "AttributeError").
Qed.

Lemma isinstance_type (v : value) (t : pytype) :
  plain v = true ->
  isinstance v (VType t) = Ok (issubclass (type_of v) t).
Proof. apply instance_of_class_plain. Qed.

Lemma isinstance_tuple (v : value) (l : list value) :
  isinstance v (VTuple l) = any_gen (isinstance v) l.
Proof.
  induction l as [| c l IH]; [reflexivity |].
  simpl any_gen; rewrite <- IH; reflexivity.
Qed.

Lemma isinstance_types (v : value) (ts : list pytype) :
  plain v = true ->
  isinstance v (VTuple (map VType ts))
  = Ok (existsb (issubclass (type_of v)) ts).
Proof.
  intros Hv; rewrite isinstance_tuple.
  rewrite (any_gen_ok (isinstance v)
             (fun c => match c with
                       | VType t => issubclass (type_of v) t
                       | _ => false
                       end)).
  - f_equal; induction ts; simpl; congruence.
  - intros x Hx; apply in_map_iff in Hx as [t [<- _]].
    now apply isinstance_type.
Qed.

Section PredicateFacts.

Variable PY2 : bool.

Lemma is_str_value (v : value) :
  plain v = true ->
  is_str PY2 v
  = Ok (issubclass (type_of v) TStr
        || (PY2 && issubclass (type_of v) TUnicode)).
Proof.
  intros Hv; unfold is_str, _str_type; destruct PY2.
  - pose proof (isinstance_types v [TStr; TUnicode] Hv) as H; cbn [map] in H; rewrite H; cbn [existsb andb].
    now rewrite orb_false_r.
  - rewrite (isinstance_type v TStr Hv); cbn [andb]; now rewrite orb_false_r.
Qed.

Lemma is_int_value (v : value) :
  plain v = true ->
  is_int PY2 v
  = Ok (issubclass (type_of v) TInt
        || (PY2 && issubclass (type_of v) TLong)).
Proof.
  intros Hv; unfold is_int, _int_type; destruct PY2.
  - pose proof (isinstance_types v [TInt; TLong] Hv) as H; cbn [map] in H; rewrite H; cbn [existsb andb].
    now rewrite orb_false_r.
  - rewrite (isinstance_type v TInt Hv); cbn [andb]; now rewrite orb_false_r.
Qed.

Lemma is_numeric_value (v : value) :
  plain v = true ->
  is_numeric PY2 v
  = Ok (issubclass (type_of v) TInt
        || (PY2 && issubclass (type_of v) TLong)
        || issubclass (type_of v) TFloat).
Proof.
  intros Hv; unfold is_numeric, _num_type; destruct PY2.
  - pose proof (isinstance_types v [TInt; TLong; TFloat] Hv) as H; cbn [map] in H; rewrite H; cbn [existsb andb].
    now rewrite orb_false_r, orb_assoc.
  - pose proof (isinstance_types v [TInt; TFloat] Hv) as H; cbn [map] in H; rewrite H; cbn [existsb andb].
    now rewrite !orb_false_r.
Qed.



End PredicateFacts.



(** ** The type matcher *)

Section MatcherFacts.

Variable PY2 : bool.

Lemma check_type_tuple (s : value) (l : list value) :
  _check_type PY2 s (VTuple l) false
  = any_gen (fun alt => _check_type PY2 s alt true) l.
Proof.
  induction l as [| c l IH]; [reflexivity |].
  simpl any_gen; rewrite <- IH; reflexivity.
Qed.

Lemma plain_or_raising (v : value) :
  plain v = true \/ exists name error, v = VRaising name error.
Proof. destruct v; eauto. Qed.

Lemma check_type_class (s : value) (t : pytype) (nested : bool) :
  _check_type PY2 s (VType t) nested
  = if pytype_eqb t TStr then isinstance s (_str_type PY2)
    else if pytype_eqb t TInt then isinstance s (_int_type PY2)
    else instance_of_class s t.
Proof. destruct t; reflexivity. Qed.

(** For a one-level specification the nesting level makes no
    difference. *)
Lemma check_type_atomic_nested (s spec : value) (nested : bool) :
  is_atomic spec = true ->
  _check_type PY2 s spec nested = _check_type PY2 s spec false.
Proof.
  destruct spec; try discriminate; intros _; [reflexivity |].
  now rewrite !check_type_class.
Qed.

Lemma check_type_atomic (s spec : value) (nested : bool) :
  plain s = true ->
  is_atomic spec = true ->
  _check_type PY2 s spec nested = Ok (conforms PY2 s spec).
Proof.
  intros Hs; destruct spec; try discriminate; intros _; [reflexivity |].
  rewrite check_type_class.
  destruct t; cbn [pytype_eqb conforms];
    try (now apply instance_of_class_plain).
  - now apply is_int_value.
  - now apply is_str_value.
Qed.

(** Whatever the value, a one-level specification is answered [True]
    exactly when the value conforms to it. *)
Lemma check_type_atomic_true (s spec : value) (nested : bool) :
  is_atomic spec = true ->
  _check_type PY2 s spec nested = Ok true <-> conforms PY2 s spec = true.
Proof.
  intros Ha; destruct (plain_or_raising s) as [Hs | (name & error & ->)].
  - rewrite (check_type_atomic s spec nested Hs Ha); split; congruence.
  - destruct spec; try discriminate; [split; discriminate |].
    rewrite check_type_class.
    destruct t; cbn [pytype_eqb conforms];
      try apply instance_of_class_true;
      unfold _int_type, _str_type; destruct PY2;
      cbn [isinstance type_of issubclass pytype_eqb orb andb];
      rewrite ?instance_of_class_raising by reflexivity;
      destruct (String.eqb error "AttributeError"); split; discriminate.
Qed.

Lemma check_type_malformed (s spec : value) (nested : bool) :
  malformed spec = true ->
  _check_type PY2 s spec nested
  = Raise (RuntimeError (MsgInvalidArgument spec)).
Proof.
  unfold malformed; intros H.
  apply andb_true_iff in H as [H Hp]; apply andb_true_iff in H as [H Htup].
  apply andb_true_iff in H as [Hn Hty].
  apply negb_true_iff in Hn, Hty, Htup.
  assert (Htype : isinstance spec (VType TType) = Ok false)
    by (rewrite (isinstance_type spec TType Hp); now rewrite Hty).
  assert (Htuple : isinstance spec (VType TTuple) = Ok false)
    by (rewrite (isinstance_type spec TTuple Hp); now rewrite Htup).
  assert (Hfmt : percent_format1 spec = Ok (MsgInvalidArgument spec))
    by (unfold percent_format1; now rewrite Htup).
  destruct spec; try discriminate;
    cbn [_check_type is_None is_class];
    rewrite Htype, Htuple, Hfmt; reflexivity.
Qed.

(** C7: matching against the specification [None].  For every value [v]
    the matcher returns whether [v] is [None]: [_check_type(v, None)] is
    [v is None], at either nesting level. *)
Theorem check_type_none (v : value) (nested : bool) :
  _check_type PY2 v VNone nested = Ok (is_None v) /\
  (is_None v = true <-> v = VNone).
Proof.
  split; [reflexivity |].
  destruct v; simpl; split; intros H; congruence.
Qed.

End MatcherFacts.

(** ** The entry points: passing and failing paths *)

Lemma walk_up_own_frame (name : string) (line : nat) (stack : list frame) :
  walk_up (Frame this_filename name line :: stack) = walk_up stack.
Proof. reflexivity. Qed.

(** The introspector opens the file of the first frame outside this
    file, whichever entry point it is reached from. *)
Lemma retrieve_opens_caller (stack : list frame) (fr : frame) (w : world) :
  walk_up stack = Some fr ->
  _retrieve_assert_arguments stack w
  = bind (open_file (co_filename fr)) (fun f =>
      bind (lift (skip_lines (f_lineno fr - 1) f)) (fun f' =>
        lift (extract_arguments (generate_tokens f')))) w.
Proof.
  intros H; unfold _retrieve_assert_arguments.
  rewrite walk_up_own_frame, H; reflexivity.
Qed.

Lemma retrieve_unreadable (stack : list frame) (fr : frame) (w : world) :
  walk_up stack = Some fr ->
  files w (co_filename fr) = None ->
  _retrieve_assert_arguments stack w
  = (Raise (IOError (co_filename fr)),
     World (files w) (co_filename fr :: opened w)).
Proof.
  intros Hfr Hnone; rewrite (retrieve_opens_caller _ fr w Hfr).
  unfold bind, open_file; rewrite Hnone; reflexivity.
Qed.

Section AssertionFacts.

Variable PY2 : bool.

Lemma assert_is_type_pass (stack : list frame) (var spec : value)
    (msg : option string) (skip : Z) (w : world) :
  _check_type PY2 var spec false = Ok true ->
  assert_is_type PY2 stack var spec msg skip w = (Ok tt, w).
Proof. intros H; unfold assert_is_type, bind, lift; now rewrite H. Qed.

Lemma assert_is_type_fail (stack : list frame) (var spec : value)
    (msg : option string) (skip : Z) (w : world) :
  _check_type PY2 var spec false = Ok false ->
  assert_is_type PY2 stack var spec msg skip w
  = bind (_retrieve_assert_arguments
            (Frame this_filename "assert_is_type" 78 :: stack))
         (fun args => bind (lift (item0 args)) (fun vname =>
            raise (H2OTypeError vname var spec msg skip))) w.
Proof. intros H; unfold assert_is_type, bind at 1, lift at 1; now rewrite H. Qed.

Lemma assert_is_type_raise (stack : list frame) (var spec : value)
    (msg : option string) (skip : Z) (w : world) (e : exn) :
  _check_type PY2 var spec false = Raise e ->
  assert_is_type PY2 stack var spec msg skip w = (Raise e, w).
Proof. intros H; unfold assert_is_type, bind, lift; now rewrite H. Qed.

(** C3: a passing assertion reads no file.  Whenever the value matches
    the specification, [assert_is_type] returns normally and leaves the
    environment as it found it: the introspector is not run and [open]
    is not called, so the list of opened files is unchanged. *)
Theorem passing_assertion_reads_nothing (stack : list frame)
    (var spec : value) (msg : option string) (skip : Z) (w : world) :
  _check_type PY2 var spec false = Ok true ->
  fst (assert_is_type PY2 stack var spec msg skip w) = Ok tt /\
  snd (assert_is_type PY2 stack var spec msg skip w) = w /\
  opened (snd (assert_is_type PY2 stack var spec msg skip w)) = opened w.
Proof.
  intros H; rewrite (assert_is_type_pass stack var spec msg skip w H); auto.
Qed.

(** The file is read on the failing path: when the value does not match
    and the caller is a frame outside this file, its source file is the
    one [open] is called on. *)
Lemma failing_assertion_opens_caller (stack : list frame) (fr : frame)
    (var spec : value) (msg : option string) (skip : Z) (w : world) :
  _check_type PY2 var spec false = Ok false ->
  walk_up stack = Some fr ->
  opened (snd (assert_is_type PY2 stack var spec msg skip w))
  = co_filename fr :: opened w.
Proof.
  intros H Hfr; rewrite (assert_is_type_fail stack var spec msg skip w H).
  unfold bind at 1.
  rewrite (retrieve_opens_caller
             (Frame this_filename "assert_is_type" 78 :: stack) fr w Hfr).
  unfold bind at 1, open_file.
  destruct (files w (co_filename fr)) as [text |]; [| reflexivity].
  unfold bind at 1, lift at 1.
  destruct (skip_lines (f_lineno fr - 1) (split_lines text)); [| reflexivity].
  unfold lift at 1.
  destruct (extract_arguments (generate_tokens a)); [| reflexivity].
  unfold bind, lift, raise; destruct (item0 a0); reflexivity.
Qed.

(** C10: booleans pass the integer and numeric checks, [bool] being a
    subclass of [int].  [is_int(True)] and [is_numeric(True)] are [True],
    and [assert_is_int(True)], [assert_is_numeric(True)] and
    [assert_is_type(True, int)] return without raising and without
    touching the environment (the same holds for [False]). *)
Theorem bool_passes_int_checks (b : bool) (stack : list frame)
    (msg : option string) (skip : Z) (w : world) :
  is_int PY2 (VBool b) = Ok true /\
  is_numeric PY2 (VBool b) = Ok true /\
  assert_is_int PY2 stack (VBool b) w = (Ok tt, w) /\
  assert_is_numeric PY2 stack (VBool b) w = (Ok tt, w) /\
  assert_is_type PY2 stack (VBool b) (VType TInt) msg skip w = (Ok tt, w).
Proof.
  repeat split.
  - now rewrite is_int_value.
  - now rewrite is_numeric_value.
  - apply assert_is_type_pass; now rewrite (check_type_atomic PY2).
  - apply assert_is_type_pass; rewrite check_type_tuple; cbn [any_gen].
    now rewrite (check_type_atomic PY2 (VBool b) (VType TInt) true eq_refl).
  - apply assert_is_type_pass; now rewrite (check_type_atomic PY2).
Qed.

End AssertionFacts.

Lemma passing_assertion_reads_nothing_witness :
  _check_type false (VInt 5) (VTuple [VType TInt; VNone]) false = Ok true /\
  opened (snd (assert_is_type false interactive_stack (VInt 5)
                 (VTuple [VType TInt; VNone]) None 1 interactive_world))
  = [].
Proof.
  split; [reflexivity |].
  exact (proj2 (proj2 (passing_assertion_reads_nothing false
                         interactive_stack (VInt 5)
                         (VTuple [VType TInt; VNone]) None 1
                         interactive_world eq_refl))).
Defined.

(** ** Unreadable caller source *)

Lemma assert_matches_fail (stack : list frame) (s : string) (r : regex)
    (w : world) :
  re_match r s = None ->
  assert_matches stack (VStr s) r w
  = bind (_retrieve_assert_arguments
            (Frame this_filename "assert_matches" 132 :: stack))
         (fun args => bind (lift (item0 args)) (fun vn =>
            raise (H2OValueError (MsgDidNotMatch vn (VStr s) r)
                                 (Some vn) 1))) w.
Proof. intros H; unfold assert_matches; cbn [text_of]; now rewrite H. Qed.

Lemma assert_satisfies_fail (stack : list frame) (v cond : value)
    (w : world) :
  truthy cond = false ->
  assert_satisfies stack v cond w
  = bind (_retrieve_assert_arguments
            (Frame this_filename "assert_satisfies" 146 :: stack))
         (fun args => bind (lift (unpack2 args)) (fun p =>
            raise (H2OValueError (MsgNotSatisfy (fst p) v (snd p))
                                 (Some (fst p)) 1))) w.
Proof. intros H; unfold assert_satisfies; now rewrite H. Qed.

(** C1 (as the code has it): there is no fallback for an unreadable
    caller source.  When the file of the calling frame cannot be opened,
    a failing check in [assert_is_type], [assert_matches] or
    [assert_satisfies] raises the [IOError] of [open], naming that file,
    and no violation error is raised. *)
Theorem unreadable_source_raises_ioerror (PY2 : bool) (stack : list frame)
    (fr : frame) (w : world) :
  walk_up stack = Some fr ->
  files w (co_filename fr) = None ->
  (forall var spec msg skip,
      _check_type PY2 var spec false = Ok false ->
      fst (assert_is_type PY2 stack var spec msg skip w)
      = Raise (IOError (co_filename fr))) /\
  (forall s r,
      re_match r s = None ->
      fst (assert_matches stack (VStr s) r w)
      = Raise (IOError (co_filename fr))) /\
  (forall v cond,
      truthy cond = false ->
      fst (assert_satisfies stack v cond w)
      = Raise (IOError (co_filename fr))).
Proof.
  intros Hfr Hnone; repeat split.
  - intros var spec msg skip H.
    rewrite (assert_is_type_fail PY2 stack var spec msg skip w H).
    unfold bind.
    rewrite (retrieve_unreadable
               (Frame this_filename "assert_is_type" 78 :: stack)
               fr w Hfr Hnone); reflexivity.
  - intros s r H; rewrite (assert_matches_fail stack s r w H).
    unfold bind.
    rewrite (retrieve_unreadable
               (Frame this_filename "assert_matches" 132 :: stack)
               fr w Hfr Hnone); reflexivity.
  - intros v cond H; rewrite (assert_satisfies_fail stack v cond w H).
    unfold bind.
    rewrite (retrieve_unreadable
               (Frame this_filename "assert_satisfies" 146 :: stack)
               fr w Hfr Hnone); reflexivity.
Qed.

Lemma unreadable_source_raises_ioerror_witness :
  fst (assert_is_type true interactive_stack (VFloat 3 (-1)) (VType TInt)
                      None 1 interactive_world)
  = Raise (IOError "<stdin>") /\
  fst (assert_matches interactive_stack (VStr "xhello") (re_literal "hello")
                      interactive_world)
  = Raise (IOError "<stdin>") /\
  fst (assert_satisfies interactive_stack (VInt 7) (VBool false)
                        interactive_world)
  = Raise (IOError "<stdin>").
Proof.
  pose proof (unreadable_source_raises_ioerror true interactive_stack
                (Frame "<stdin>" "<module>" 1) interactive_world
                eq_refl eq_refl) as (Htype & Hmatch & Hsat).
  split; [| split].
  - apply Htype; reflexivity.
  - apply Hmatch; reflexivity.
  - apply Hsat; reflexivity.
Defined.

(** C1 fails as stated: in an interactive session, [assert_is_type] on
    the string ["4"] against [int] raises the [IOError] of opening
    [<stdin>], not a type violation with a placeholder name. *)
Lemma interactive_session_loses_violation :
  fst (assert_is_type false interactive_stack (VStr "4") (VType TInt)
                      None 1 interactive_world)
  = Raise (IOError "<stdin>") /\
  ~ (exists vname,
        fst (assert_is_type false interactive_stack (VStr "4") (VType TInt)
                            None 1 interactive_world)
        = Raise (H2OTypeError vname (VStr "4") (VType TInt) None 1)).
Proof.
  split; [reflexivity |].
  intros [vname H]; vm_compute in H; discriminate H.
Qed.

(** ** Regular expressions: the matcher against the language *)

Lemma string_app_eq_nil (a b : string) :
  (a ++ b)%string = "" -> a = "" /\ b = "".
Proof. destruct a; simpl; [auto | discriminate]. Qed.

Lemma cat_inv (r1 r2 : regex) (s : string) :
  re_lang (ReCat r1 r2) s ->
  exists s1 s2, s = (s1 ++ s2)%string /\ re_lang r1 s1 /\ re_lang r2 s2.
Proof. intros H; inversion H; subst; eauto. Qed.

Lemma nullable_lang (r : regex) : nullable r = true <-> re_lang r "".
Proof.
  induction r; simpl.
  - split; intros H; [discriminate | inversion H].
  - split; intros H; [constructor | reflexivity].
  - split; intros H; [discriminate | inversion H].
  - split; intros H; [discriminate | inversion H].
  - rewrite andb_true_iff, IHr1, IHr2; split.
    + intros [H1 H2]; change "" with ("" ++ "")%string; now constructor.
    + intros H; apply cat_inv in H as (s1 & s2 & Heq & H1 & H2).
      symmetry in Heq; apply string_app_eq_nil in Heq as [-> ->]; auto.
  - rewrite orb_true_iff, IHr1, IHr2; split.
    + intros [H | H]; [now apply L_alt_l | now apply L_alt_r].
    + intros H; inversion H; subst; auto.
  - split; intros H; [constructor | reflexivity].
Qed.

(** A non-empty word of a starred pattern starts with a non-empty word
    of the pattern. *)
Lemma star_cons_inv (r : regex) (s : string) :
  re_lang (ReStar r) s ->
  forall c s', s = String c s' ->
  exists s1 s2, s' = (s1 ++ s2)%string /\
                re_lang r (String c s1) /\ re_lang (ReStar r) s2.
Proof.
  intros H; remember (ReStar r) as r0 eqn:Er.
  induction H as [| | | | | | | r' s1 s2 H1 _ H2 IH2]; try discriminate.
  injection Er as ->; intros c s' E.
  destruct s1 as [| c1 s1'].
  - simpl in E; apply (IH2 eq_refl c s' E).
  - simpl in E; injection E as -> <-.
    exists s1', s2; auto.
Qed.

Lemma deriv_lang (c : ascii) (r : regex) (s : string) :
  re_lang (deriv c r) s <-> re_lang r (String c s).
Proof.
  revert s; induction r; intros s; simpl.
  - split; intros H; inversion H.
  - split; intros H; inversion H.
  - destruct (Ascii.eqb_spec c c0) as [-> | Hne]; split; intros H.
    + inversion H; subst; constructor.
    + inversion H; subst; constructor.
    + inversion H.
    + inversion H; subst; congruence.
  - destruct (Ascii.eqb_spec c newline_char) as [-> | Hne]; split; intros H.
    + inversion H.
    + inversion H; subst; congruence.
    + inversion H; subst; now constructor.
    + inversion H; subst; constructor.
  - assert (Hcat : forall s, re_lang (ReCat (deriv c r1) r2) s ->
                             re_lang (ReCat r1 r2) (String c s)).
    { intros s0 H.
      apply cat_inv in H as (s1 & s2 & -> & H1 & H2).
      change (String c (s1 ++ s2)) with (String c s1 ++ s2)%string.
      constructor; [apply IHr1 |]; assumption. }
    assert (Hinv : re_lang (ReCat r1 r2) (String c s) ->
                   re_lang (ReCat (deriv c r1) r2) s \/
                   (nullable r1 = true /\ re_lang (deriv c r2) s)).
    { intros H.
      apply cat_inv in H as (s1 & s2 & Heq & H1 & H2).
      destruct s1 as [| c1 s1'].
      - simpl in Heq; subst s2; right; split;
          [apply nullable_lang | apply IHr2]; assumption.
      - simpl in Heq; injection Heq as <- ->.
        left; constructor; [apply IHr1 |]; assumption. }
    destruct (nullable r1) eqn:Hn; split; intros H.
    + inversion H; subst; [now apply Hcat |].
      change (String c s) with ("" ++ String c s)%string.
      constructor; [now apply nullable_lang | now apply IHr2].
    + destruct (Hinv H) as [H' | [_ H']];
        [now apply L_alt_l | now apply L_alt_r].
    + now apply Hcat.
    + destruct (Hinv H) as [H' | [H' _]]; [assumption | discriminate].
  - split; intros H; inversion H; subst.
    + apply L_alt_l; now apply IHr1.
    + apply L_alt_r; now apply IHr2.
    + apply L_alt_l; now apply IHr1.
    + apply L_alt_r; now apply IHr2.
  - split; intros H.
    + apply cat_inv in H as (s1 & s2 & -> & H1 & H2).
      change (String c (s1 ++ s2)) with (String c s1 ++ s2)%string.
      constructor; [now apply IHr | assumption].
    + destruct (star_cons_inv r (String c s) H c s eq_refl) as (s1 & s2 & -> & H1 & H2).
      constructor; [now apply IHr | assumption].
Qed.

(** [prefix_matches] decides whether a prefix of the subject is a word
    of the pattern. *)
Lemma prefix_matches_lang (r : regex) (s : string) :
  prefix_matches r s = true <->
  exists s1 s2, s = (s1 ++ s2)%string /\ re_lang r s1.
Proof.
  revert r; induction s as [| c s IH]; intros r; simpl.
  - rewrite orb_false_r, nullable_lang; split.
    + intros H; exists "", ""; auto.
    + intros (s1 & s2 & E & H); symmetry in E.
      apply string_app_eq_nil in E as [-> _]; assumption.
  - rewrite orb_true_iff, IH, nullable_lang; split.
    + intros [H | (s1 & s2 & -> & H)].
      * exists "", (String c s); auto.
      * exists (String c s1), s2; split; [reflexivity | now apply deriv_lang].
    + intros (s1 & s2 & E & H); destruct s1 as [| c1 s1'].
      * now left.
      * simpl in E; injection E as <- ->; right.
        exists s1', s2; split; [reflexivity | now apply deriv_lang].
Qed.

Lemma re_literal_lang (p : string) : re_lang (re_literal p) p.
Proof.
  induction p as [| c p IH]; simpl; [constructor |].
  change (String c p) with (String c "" ++ p)%string.
  constructor; [constructor | assumption].
Qed.

Lemma re_literal_only (p s : string) : re_lang (re_literal p) s -> s = p.
Proof.
  revert s; induction p as [| c p IH]; intros s H; simpl in H.
  - now inversion H.
  - apply cat_inv in H as (s1 & s2 & -> & H1 & H2).
    inversion H1; subst; simpl; f_equal; now apply IH.
Qed.

(** ** [assert_matches] *)

Lemma retrieve_at_call_site (stack : list frame) (w : world)
    (lines : list string) :
  call_site stack w lines ->
  exists w',
    _retrieve_assert_arguments stack w
    = (extract_arguments (generate_tokens lines), w').
Proof.
  intros (fr & text & Hfr & Htext & Hskip).
  rewrite (retrieve_opens_caller stack fr w Hfr).
  unfold bind, open_file, lift; rewrite Htext, Hskip; eauto.
Qed.

Lemma assert_matches_pass (stack : list frame) (s : string) (r : regex)
    (w : world) :
  prefix_matches r s = true ->
  assert_matches stack (VStr s) r w = (Ok (VMatch (MatchObject r s)), w).
Proof. intros H; unfold assert_matches, re_match; cbn [text_of]; now rewrite H. Qed.

Lemma assert_matches_no_match (stack : list frame) (s : string) (r : regex)
    (w : world) :
  prefix_matches r s = false ->
  forall m, fst (assert_matches stack (VStr s) r w) <> Ok m.
Proof.
  intros H m; rewrite assert_matches_fail
    by (unfold re_match; now rewrite H).
  unfold bind.
  destruct (_retrieve_assert_arguments _ w) as [[args | e] w'];
    [| discriminate].
  unfold lift, raise; destruct (item0 args); discriminate.
Qed.

Lemma assert_matches_violation (stack : list frame) (s : string) (r : regex)
    (w : world) (lines : list string) (vn : string) (more : list string) :
  prefix_matches r s = false ->
  call_site stack w lines ->
  extract_arguments (generate_tokens lines) = Ok (vn :: more) ->
  fst (assert_matches stack (VStr s) r w)
  = Raise (H2OValueError (MsgDidNotMatch vn (VStr s) r) (Some vn) 1).
Proof.
  intros H Hsite Hargs; rewrite assert_matches_fail
    by (unfold re_match; now rewrite H).
  destruct (retrieve_at_call_site
              (Frame this_filename "assert_matches" 132 :: stack) w lines
              Hsite) as [w' Hr].
  unfold bind; rewrite Hr, Hargs; reflexivity.
Qed.

(** C6: [assert_matches] is an anchored prefix match.  For every string
    and pattern it returns normally exactly when some prefix of the
    string is a word of the pattern, the rest of the string being free.
    So [assert_matches("hello world", "hello")] passes although the
    pattern does not match the whole string, and
    [assert_matches("xhello", "hello")], written on a readable source
    line, raises the value violation [H2OValueError]. *)
Theorem assert_matches_prefix_semantics (stack : list frame) (s : string)
    (r : regex) (w : world) :
  ((exists m, fst (assert_matches stack (VStr s) r w) = Ok m) <->
   (exists s1 s2, s = (s1 ++ s2)%string /\ re_lang r s1)) /\
  (fst (assert_matches stack (VStr "hello world") (re_literal "hello") w)
   = Ok (VMatch (MatchObject (re_literal "hello") "hello world")) /\
   ~ re_lang (re_literal "hello") "hello world") /\
  (forall rest,
      call_site stack w
        (source_line "assert_matches('xhello', 'hello')" :: rest) ->
      fst (assert_matches stack (VStr "xhello") (re_literal "hello") w)
      = Raise (H2OValueError
                 (MsgDidNotMatch "'xhello'" (VStr "xhello")
                                 (re_literal "hello"))
                 (Some "'xhello'") 1)).
Proof.
  split; [| split].
  - rewrite <- prefix_matches_lang.
    destruct (prefix_matches r s) eqn:H; split.
    + intros _; reflexivity.
    + intros _; rewrite (assert_matches_pass stack s r w H); simpl; eauto.
    + intros [m Hm]; now apply assert_matches_no_match in Hm.
    + discriminate.
  - split; [reflexivity |].
    intros H; apply re_literal_only in H; discriminate H.
  - intros rest Hsite.
    apply (assert_matches_violation stack "xhello" (re_literal "hello") w
             _ "'xhello'" ["'hello'"] eq_refl Hsite).
    vm_compute; reflexivity.
Qed.

(** C9: a successful [assert_matches] returns the match object.  When
    the pattern matches at the start of the string, the call returns the
    object [re.match] produced, which is not [None], and leaves the
    environment untouched. *)
Theorem assert_matches_returns_match (stack : list frame) (s : string)
    (r : regex) (w : world) :
  prefix_matches r s = true ->
  assert_matches stack (VStr s) r w = (Ok (VMatch (MatchObject r s)), w) /\
  re_match r s = Some (MatchObject r s) /\
  is_None (VMatch (MatchObject r s)) = false.
Proof.
  intros H; split; [now apply assert_matches_pass |].
  split; [unfold re_match; now rewrite H | reflexivity].
Qed.

Lemma assert_matches_returns_match_witness :
  prefix_matches (re_literal "hello") "hello world" = true /\
  assert_matches (script_stack 1) (VStr "hello world") (re_literal "hello")
                 interactive_world
  = (Ok (VMatch (MatchObject (re_literal "hello") "hello world")),
     interactive_world).
Proof.
  split; [reflexivity |].
  apply (assert_matches_returns_match (script_stack 1) "hello world"
           (re_literal "hello") interactive_world).
  reflexivity.
Defined.

Lemma assert_matches_prefix_semantics_witness :
  fst (assert_matches (script_stack 1) (VStr "xhello") (re_literal "hello")
         (script_world (source_line "assert_matches('xhello', 'hello')")))
  = Raise (H2OValueError
             (MsgDidNotMatch "'xhello'" (VStr "xhello") (re_literal "hello"))
             (Some "'xhello'") 1).
Proof.
  apply (proj2 (proj2 (assert_matches_prefix_semantics
                         (script_stack 1) "xhello" (re_literal "hello")
                         (script_world
                            (source_line "assert_matches('xhello', 'hello')"))))
           []).
  exists (Frame "script.py" "<module>" 1),
         (source_line "assert_matches('xhello', 'hello')").
  repeat split; reflexivity.
Defined.

(** ** Alternations *)

Lemma existsb_perm {A} (g : A -> bool) (l l' : list A) :
  Permutation l l' -> existsb g l = existsb g l'.
Proof.
  induction 1; simpl; try congruence.
  now rewrite !orb_assoc, (orb_comm (g y)).
Qed.

Lemma any_gen_reach {A} (f : A -> result bool) (pre : list A) (x : A)
    (post : list A) :
  (forall y, In y pre -> f y = Ok false) ->
  any_gen f (pre ++ x :: post)
  = match f x with
    | Ok true => Ok true
    | Ok false => any_gen f post
    | Raise e => Raise e
    end.
Proof.
  induction pre as [| y pre IH]; intros H; simpl; [reflexivity |].
  rewrite (H y (or_introl eq_refl)); apply IH.
  intros z Hz; apply H; now right.
Qed.

Lemma any_gen_found {A} (f : A -> result bool) (g : A -> bool)
    (pre post : list A) :
  (forall y, In y pre -> f y = Ok (g y)) ->
  existsb g pre = true ->
  any_gen f (pre ++ post) = Ok true.
Proof.
  induction pre as [| y pre IH]; intros H Hex; simpl in *; [discriminate |].
  rewrite (H y (or_introl eq_refl)).
  destruct (g y); [reflexivity |]; apply IH; auto.
Qed.

Lemma existsb_false_all {A} (g : A -> bool) (l : list A) :
  existsb g l = false -> forall y, In y l -> g y = false.
Proof.
  intros H y Hy; destruct (g y) eqn:E; [| reflexivity].
  rewrite <- H; symmetry; apply existsb_exists; eauto.
Qed.

Lemma any_gen_returns {A} (f : A -> result bool) (l : list A) :
  (forall x, In x l -> exists b, f x = Ok b) ->
  (exists b, any_gen f l = Ok b) /\
  (any_gen f l = Ok true <-> exists x, In x l /\ f x = Ok true).
Proof.
  induction l as [| x l IH]; intros H; simpl.
  - split; [eauto |]; split; [discriminate | intros (x & [] & _)].
  - destruct (H x (or_introl eq_refl)) as [b Hb]; rewrite Hb.
    destruct b.
    + split; [eauto |]; split; eauto.
    + destruct IH as [IH1 IH2]; [intros y Hy; apply H; now right |].
      split; [exact IH1 |]; rewrite IH2; split.
      * intros (y & Hy & Hf); eauto.
      * intros (y & [<- | Hy] & Hf); [congruence | eauto].
Qed.

Lemma any_gen_perm {A} (f : A -> result bool) (l l' : list A) :
  (forall x, In x l -> exists b, f x = Ok b) ->
  Permutation l l' ->
  any_gen f l' = any_gen f l.
Proof.
  intros H Hp.
  assert (H' : forall x, In x l' -> exists b, f x = Ok b).
  { intros x Hx; apply H; eapply Permutation_in;
      [apply Permutation_sym |]; eassumption. }
  destruct (any_gen_returns f l H) as [[b Hb] Hiff].
  destruct (any_gen_returns f l' H') as [[b' Hb'] Hiff'].
  rewrite Hb, Hb'; f_equal.
  assert (Hsame : (exists x, In x l /\ f x = Ok true) <->
                  (exists x, In x l' /\ f x = Ok true)).
  { split; intros (x & Hx & Hf); exists x; split; auto;
      eapply Permutation_in; try eassumption.
    now apply Permutation_sym. }
  rewrite Hb in Hiff; rewrite Hb' in Hiff'.
  destruct b, b'; try reflexivity.
  - assert (E : Ok (A := bool) false = Ok true)
      by (apply Hiff', Hsame, Hiff; reflexivity).
    discriminate E.
  - assert (E : Ok (A := bool) false = Ok true)
      by (apply Hiff, Hsame, Hiff'; reflexivity).
    discriminate E.
Qed.

Section AlternationFacts.

Variable PY2 : bool.

Lemma check_type_alternatives (s : value) (l : list value) :
  plain s = true ->
  Forall (fun alt => is_atomic alt = true) l ->
  _check_type PY2 s (VTuple l) false = Ok (existsb (conforms PY2 s) l).
Proof.
  intros Hs H; rewrite check_type_tuple; apply any_gen_ok.
  intros alt Halt; apply check_type_atomic; [exact Hs |].
  now apply (proj1 (Forall_forall _ l) H).
Qed.

(** A tuple met as an alternative is not searched. *)
Lemma check_type_nested_tuple (s : value) (inner : list value) :
  _check_type PY2 s (VTuple inner) true
  = match inner with
    | [y] => Raise (RuntimeError (MsgInvalidArgument y))
    | _ => Raise TypeError
    end.
Proof. destruct inner as [| y [| z inner]]; reflexivity. Qed.

(** For [None] and for classes the nesting level makes no difference. *)
Lemma check_type_one_level_nested (s alt : value) (nested : bool) :
  is_one_level alt = true ->
  _check_type PY2 s alt nested = _check_type PY2 s alt false.
Proof.
  unfold is_one_level; intros H.
  destruct alt; try discriminate H; try reflexivity.
  cbn [is_None orb type_of] in H.
  cbn [_check_type is_None is_class isinstance].
  unfold instance_of_class at 1 3; cbn [type_of]; rewrite H; reflexivity.
Qed.



(** The alternatives are tried from the left: the answer is that of the
    first alternative that does not answer [False]. *)
Lemma check_type_first_decides (s : value) (pre : list value) (alt : value)
    (post : list value) :
  (forall a, In a pre -> _check_type PY2 s a true = Ok false) ->
  _check_type PY2 s alt true <> Ok false ->
  _check_type PY2 s (VTuple (pre ++ alt :: post)) false
  = _check_type PY2 s alt true.
Proof.
  intros Hpre Halt; rewrite check_type_tuple, any_gen_reach by exact Hpre.
  destruct (_check_type PY2 s alt true) as [[|] |]; congruence.
Qed.

End AlternationFacts.

(** C2 (as the code has it): alternation is for tuples, tried from the
    left.  For a tuple of one-level specifications ([None] or classes)
    whose checks on the value all return, the matcher returns whether at
    least one alternative matches, whatever the order of the
    alternatives.  In general the answer is that of the first
    alternative that does not answer [False], so a check that raises
    makes the result depend on the order.  A list is not an alternation:
    it is rejected with the logic error [RuntimeError].  A tuple met as
    an alternative, reached because the alternatives before it answer
    [False], is never searched: the call raises, with [RuntimeError]
    when that tuple has one element. *)
Theorem tuple_alternation (PY2 : bool) (v : value) (l : list value) :
  (Forall (fun alt => is_one_level alt = true /\
                      exists b, _check_type PY2 v alt false = Ok b) l ->
   (exists b, _check_type PY2 v (VTuple l) false = Ok b) /\
   (_check_type PY2 v (VTuple l) false = Ok true <->
    exists alt, In alt l /\ _check_type PY2 v alt false = Ok true) /\
   (forall l', Permutation l l' ->
               _check_type PY2 v (VTuple l') false
               = _check_type PY2 v (VTuple l) false)) /\
  (forall pre alt post,
      l = pre ++ alt :: post ->
      (forall a, In a pre -> _check_type PY2 v a true = Ok false) ->
      _check_type PY2 v alt true <> Ok false ->
      _check_type PY2 v (VTuple l) false = _check_type PY2 v alt true) /\
  (forall nested,
      _check_type PY2 v (VList l) nested
      = Raise (RuntimeError (MsgInvalidArgument (VList l)))) /\
  (forall pre inner post,
      l = pre ++ VTuple inner :: post ->
      (forall a, In a pre -> _check_type PY2 v a true = Ok false) ->
      exists e,
        _check_type PY2 v (VTuple l) false = Raise e /\
        (forall y, inner = [y] -> e = RuntimeError (MsgInvalidArgument y))).
Proof.
  split; [| split; [| split]].
  - intros Hl.
    assert (Hret : forall alt, In alt l ->
                               exists b, _check_type PY2 v alt true = Ok b).
    { intros alt Hin.
      destruct (proj1 (Forall_forall _ l) Hl alt Hin) as [H1 [b Hb]].
      exists b; now rewrite (check_type_one_level_nested PY2 v alt true H1). }
    assert (Hsame : forall alt, In alt l ->
                                _check_type PY2 v alt true
                                = _check_type PY2 v alt false).
    { intros alt Hin.
      destruct (proj1 (Forall_forall _ l) Hl alt Hin) as [H1 _].
      now apply check_type_one_level_nested. }
    rewrite check_type_tuple.
    destruct (any_gen_returns (fun alt => _check_type PY2 v alt true) l Hret)
      as [Hb Hiff].
    split; [exact Hb |]; split.
    + rewrite Hiff; split; intros (alt & Hin & H); exists alt; split; auto.
      * now rewrite <- (Hsame alt Hin).
      * now rewrite (Hsame alt Hin).
    + intros l' Hp; rewrite check_type_tuple.
      now apply any_gen_perm.
  - intros pre alt post -> Hpre Halt.
    now apply check_type_first_decides.
  - intros nested; now apply check_type_malformed.
  - intros pre inner post -> Hpre.
    rewrite check_type_first_decides; [| exact Hpre |];
      rewrite check_type_nested_tuple;
      destruct inner as [| y [| z inner]]; try discriminate;
      eexists; split; try reflexivity; try discriminate.
    now intros y' [= <-].
Qed.

Lemma tuple_alternation_witness :
  _check_type false (VInt 5) (VTuple [VNone; VType TInt; VType TStr]) false
  = _check_type false (VInt 5) (VTuple [VType TStr; VType TInt; VNone]) false
  /\
  _check_type false (VInt 5)
              (VTuple [VType TStr; VClassOf "Meta" (Raises "KeyError");
                       VType TInt]) false
  = Raise (UserError "KeyError") /\
  exists e,
    _check_type false (VInt 5) (VTuple [VType TStr; VTuple [VType TInt]])
                false = Raise e /\
    (forall y, [VType TInt] = [y] -> e = RuntimeError (MsgInvalidArgument y)).
Proof.
  split; [| split].
  - refine (proj2 (proj2 (proj1
              (tuple_alternation false (VInt 5)
                 [VType TStr; VType TInt; VNone]) _)) _ _).
    + repeat constructor; eexists; reflexivity.
    + apply Permutation_rev.
  - refine (proj1 (proj2
              (tuple_alternation false (VInt 5)
                 [VType TStr; VClassOf "Meta" (Raises "KeyError");
                  VType TInt]))
              [VType TStr] (VClassOf "Meta" (Raises "KeyError"))
              [VType TInt] eq_refl _ _).
    + intros a [<- | []]; reflexivity.
    + discriminate.
  - refine (proj2 (proj2 (proj2
              (tuple_alternation false (VInt 5)
                 [VType TStr; VTuple [VType TInt]])))
              [VType TStr] [VType TInt] [] eq_refl _).
    intros a [<- | []]; reflexivity.
Defined.

(** C2 fails as stated for lists: [_check_type(5, [int, str])] raises
    the logic error although the alternative [int] matches the value. *)
Lemma list_alternation_rejected :
  _check_type false (VInt 5) (VType TInt) false = Ok true /\
  In (VType TInt) [VType TInt; VType TStr] /\
  _check_type false (VInt 5) (VList [VType TInt; VType TStr]) false
  = Raise (RuntimeError (MsgInvalidArgument (VList [VType TInt; VType TStr])))
  /\
  _check_type false (VInt 5) (VList [VType TInt; VType TStr]) false
  <> Ok true.
Proof.
  repeat split; try reflexivity; [now left | discriminate].
Qed.

(** A class whose instance check raises makes the answer depend on the
    order of the alternatives. *)
Example raising_check_depends_on_order :
  _check_type false (VInt 5)
              (VTuple [VType TInt; VClassOf "Meta" (Raises "KeyError")]) false
  = Ok true /\
  _check_type false (VInt 5)
              (VTuple [VClassOf "Meta" (Raises "KeyError"); VType TInt]) false
  = Raise (UserError "KeyError").
Proof. split; reflexivity. Qed.




(** ** The argument scanner *)

Lemma append_to_last_snoc (done : list (list token)) (cur : list token)
    (t : token) :
  append_to_last (done ++ [cur]) t = Ok (done ++ [cur ++ [t]]).
Proof.
  induction done as [| d done IH]; [reflexivity |].
  change ((d :: done) ++ [cur]) with (d :: (done ++ [cur])).
  cbn [append_to_last]; rewrite IH.
  destruct done; reflexivity.
Qed.

Lemma is_op_exclusive (t : token) :
  is_op t ")" = true -> is_op t "," = false.
Proof.
  unfold is_op; intros H; apply andb_true_iff in H as [_ H].
  apply String.eqb_eq in H; rewrite H; apply andb_false_r.
Qed.

Lemma level_step (level : Z) (t : token) :
  (if closes_bracket t
   then ((if opens_bracket t then level + 1 else level) - 1)%Z
   else (if opens_bracket t then (level + 1)%Z else level))
  = next_level level t.
Proof.
  unfold next_level; destruct (opens_bracket t), (closes_bracket t); lia.
Qed.

(** One step of the scanner on a token that belongs to the current
    argument. *)
Lemma scan_inside (t : token) (g : list token) (tail : option exn)
    (done : list (list token)) (cur : list token) (level : Z) :
  (level =? 0)%Z && (is_op t "," || is_op t ")") = false ->
  (0 <=? next_level level t)%Z = true ->
  scan_tokens (t :: g) tail 2 (done ++ [cur]) level
  = scan_tokens g tail 2 (done ++ [cur ++ [t]]) (next_level level t).
Proof.
  intros Hsep Hlev; cbn [scan_tokens].
  rewrite level_step.
  destruct ((level =? 0)%Z) eqn:Hz; simpl in Hsep |- *.
  - apply orb_false_iff in Hsep as [-> ->].
    replace (next_level level t <? 0)%Z with false by lia.
    now rewrite append_to_last_snoc.
  - replace (next_level level t <? 0)%Z with false by lia.
    now rewrite append_to_last_snoc.
Qed.

Lemma scan_argument (a : list token) :
  forall (level : Z) (done : list (list token)) (cur g : list token)
         (tail : option exn),
    is_argument level a = true ->
    scan_tokens (a ++ g) tail 2 (done ++ [cur]) level
    = scan_tokens g tail 2 (done ++ [cur ++ a]) 0.
Proof.
  induction a as [| t a IH]; intros level done cur g tail H; simpl in H.
  - apply Z.eqb_eq in H; subst level; now rewrite app_nil_r.
  - apply andb_true_iff in H as [H Ha]; apply andb_true_iff in H as [Hs Hl].
    apply negb_true_iff in Hs.
    change ((t :: a) ++ g) with (t :: (a ++ g)).
    rewrite (scan_inside t (a ++ g) tail done cur level Hs Hl).
    rewrite (IH _ done (cur ++ [t]) g tail Ha).
    now rewrite <- app_assoc.
Qed.

Lemma scan_call (more : list (token * list token)) :
  forall (a : list token) (level : Z) (done : list (list token))
         (cur : list token) (rp : token) (rest : list token)
         (tail : option exn),
    is_argument level a = true ->
    Forall (fun p => is_op (fst p) "," = true
                     /\ is_argument 0 (snd p) = true) more ->
    is_op rp ")" = true ->
    scan_tokens (join_arguments a more ++ rp :: rest) tail 2
                (done ++ [cur]) level
    = Ok (done ++ (cur ++ a) :: map snd more).
Proof.
  unfold join_arguments.
  induction more as [| [c a'] more IH];
    intros a level done cur rp rest tail Ha Hmore Hrp.
  - simpl; rewrite app_nil_r.
    rewrite (scan_argument a level done cur (rp :: rest) tail Ha).
    cbn [scan_tokens]; rewrite Hrp, (is_op_exclusive rp Hrp); reflexivity.
  - inversion Hmore as [| p more' [Hc Ha'] Hmore']; subst; simpl in Hc, Ha'.
    rewrite <- app_assoc.
    rewrite (scan_argument a level done cur _ tail Ha).
    cbn [flat_map fst snd app scan_tokens].
    rewrite Hc; cbn [Z.eqb andb].
    rewrite (IH a' 0%Z (done ++ [cur ++ a]) [] rp rest tail Ha' Hmore' Hrp).
    now rewrite <- app_assoc.
Qed.

Lemma scan_break_inv (g : list token) :
  forall (e : exn) (done : list (list token)) (cur : list token)
         (level : Z) (args : list (list token)),
    scan_tokens g (Some e) 2 (done ++ [cur]) level = Ok args ->
    exists a more rp rest,
      g = join_arguments a more ++ rp :: rest /\
      args = done ++ (cur ++ a) :: map snd more /\
      is_argument level a = true /\
      Forall (fun p => is_op (fst p) "," = true
                       /\ is_argument 0 (snd p) = true) more /\
      is_op rp ")" = true.
Proof.
  induction g as [| t g IH]; intros e done cur level args H;
    [discriminate H |].
  cbn [scan_tokens] in H.
  destruct ((level =? 0)%Z && is_op t ",") eqn:Hc.
  - apply andb_true_iff in Hc as [Hz Hc].
    destruct (IH e (done ++ [cur]) [] level args H)
      as (a' & more' & rp & rest & -> & -> & Ha' & Hmore' & Hrp).
    apply Z.eqb_eq in Hz; subst level.
    exists [], ((t, a') :: more'), rp, rest; repeat split; auto.
    rewrite app_nil_r, <- app_assoc; reflexivity.
  - destruct ((level =? 0)%Z && is_op t ")") eqn:Hr.
    + apply andb_true_iff in Hr as [Hz Hr]; injection H as <-.
      exists [], [], t, g; rewrite app_nil_r; repeat split; auto.
    + rewrite level_step in H.
      destruct (next_level level t <? 0)%Z eqn:Hneg; [discriminate H |].
      rewrite append_to_last_snoc in H; cbn [rbind] in H.
      destruct (IH e done (cur ++ [t]) (next_level level t) args H)
        as (a' & more' & rp & rest & -> & -> & Ha' & Hmore' & Hrp).
      exists (t :: a'), more', rp, rest; repeat split; auto.
      * now rewrite <- app_assoc.
      * cbn [is_argument]; rewrite Ha', andb_true_r.
        apply andb_true_iff; split; [| lia].
        apply negb_true_iff.
        destruct ((level =? 0)%Z); simpl in *; [| reflexivity].
        now rewrite Hc, Hr.
Qed.

Lemma scan_find_call (pre : list token) (name lp : token) (g : list token)
    (tail : option exn) :
  forallb (fun t => negb (is_assert_name t)) pre = true ->
  is_assert_name name = true ->
  is_op lp "(" = true ->
  scan_tokens (pre ++ name :: lp :: g) tail 0 [] 0
  = scan_tokens g tail 2 [[]] 0.
Proof.
  intros Hpre Hname Hlp; induction pre as [| t pre IH].
  - unfold is_assert_name in Hname.
    apply andb_true_iff in Hname as [Hty Hpx].
    cbn [app scan_tokens]; now rewrite Hty, Hpx, Hlp.
  - cbn [forallb] in Hpre; apply andb_true_iff in Hpre as [Ht Hpre].
    apply negb_true_iff in Ht; unfold is_assert_name in Ht.
    cbn [app scan_tokens].
    destruct (toktype_eqb (ttype t) NAME); simpl in Ht |- *; [| now apply IH].
    rewrite Ht; simpl; now apply IH.
Qed.

Lemma assert_satisfies_violation (stack : list frame) (v cond : value)
    (w : world) (lines : list string) (vname vexpr : string) :
  truthy cond = false ->
  call_site stack w lines ->
  extract_arguments (generate_tokens lines) = Ok [vname; vexpr] ->
  fst (assert_satisfies stack v cond w)
  = Raise (H2OValueError (MsgNotSatisfy vname v vexpr) (Some vname) 1).
Proof.
  intros H Hsite Hargs; rewrite (assert_satisfies_fail stack v cond w H).
  destruct (retrieve_at_call_site
              (Frame this_filename "assert_satisfies" 146 :: stack) w lines
              Hsite) as [w' Hr].
  unfold bind; rewrite Hr, Hargs; reflexivity.
Qed.

(** C4: the introspector splits the argument list at depth 0 only.
    After the name of the assertion and its opening parenthesis, the
    scanner starts a new argument at exactly the commas met at bracket
    depth 0 and stops at the first closing parenthesis met at depth 0:
    on a call whose arguments hold no comma and no closing parenthesis
    at depth 0 it returns those arguments, and whenever it stops it has
    read such a call.  For the source line
    [assert_satisfies(x, x in [1, 2, 3])] the texts recovered are the two
    expressions [x] and [x in [1, 2, 3]], which a failing
    [assert_satisfies] reports. *)
Theorem arguments_split_at_depth_zero :
  (forall pre name lp first more rp rest tail,
      forallb (fun t => negb (is_assert_name t)) pre = true ->
      is_assert_name name = true ->
      is_op lp "(" = true ->
      is_argument 0 first = true ->
      Forall (fun p => is_op (fst p) "," = true
                       /\ is_argument 0 (snd p) = true) more ->
      is_op rp ")" = true ->
      scan_tokens (pre ++ name :: lp :: join_arguments first more
                       ++ rp :: rest) tail 0 [] 0
      = Ok (first :: map snd more)) /\
  (forall g e args,
      scan_tokens g (Some e) 2 [[]] 0 = Ok args ->
      exists first more rp rest,
        g = join_arguments first more ++ rp :: rest /\
        args = first :: map snd more /\
        is_argument 0 first = true /\
        Forall (fun p => is_op (fst p) "," = true
                         /\ is_argument 0 (snd p) = true) more /\
        is_op rp ")" = true) /\
  (forall rest,
      extract_arguments
        (generate_tokens
           (source_line "assert_satisfies(x, x in [1, 2, 3])" :: rest))
      = Ok ["x"; "x in [1, 2, 3]"]) /\
  (forall stack w rest v cond,
      call_site stack w
        (source_line "assert_satisfies(x, x in [1, 2, 3])" :: rest) ->
      truthy cond = false ->
      fst (assert_satisfies stack v cond w)
      = Raise (H2OValueError (MsgNotSatisfy "x" v "x in [1, 2, 3]")
                             (Some "x") 1)).
Proof.
  split; [| split; [| split]].
  - intros pre name lp first more rp rest tail Hpre Hname Hlp Hf Hm Hrp.
    rewrite (scan_find_call pre name lp _ tail Hpre Hname Hlp).
    apply (scan_call more first 0%Z [] [] rp rest tail Hf Hm Hrp).
  - intros g e args H.
    apply (scan_break_inv g e [] [] 0%Z args H).
  - intros rest; vm_compute; reflexivity.
  - intros stack w rest v cond Hsite Hcond.
    apply (assert_satisfies_violation stack v cond w _ "x" "x in [1, 2, 3]"
             Hcond Hsite).
    vm_compute; reflexivity.
Qed.

Lemma arguments_split_at_depth_zero_witness :
  scan_tokens
    [Token NAME "assert_x" (1, 0) (1, 8); Token OP "(" (1, 8) (1, 9);
     Token NAME "a" (1, 9) (1, 10); Token OP "," (1, 10) (1, 11);
     Token NAME "f" (1, 12) (1, 13); Token OP "(" (1, 13) (1, 14);
     Token NAME "b" (1, 14) (1, 15); Token OP "," (1, 15) (1, 16);
     Token NAME "c" (1, 17) (1, 18); Token OP ")" (1, 18) (1, 19);
     Token OP ")" (1, 19) (1, 20); Token NEWLINE "" (1, 20) (1, 21)]
    None 0 [] 0
  = Ok [[Token NAME "a" (1, 9) (1, 10)];
        [Token NAME "f" (1, 12) (1, 13); Token OP "(" (1, 13) (1, 14);
         Token NAME "b" (1, 14) (1, 15); Token OP "," (1, 15) (1, 16);
         Token NAME "c" (1, 17) (1, 18); Token OP ")" (1, 18) (1, 19)]] /\
  fst (assert_satisfies (script_stack 2) (VInt 7) (VBool false)
         (script_world
            (source_line "x = 7"
             ++ source_line "assert_satisfies(x, x in [1, 2, 3])")))
  = Raise (H2OValueError (MsgNotSatisfy "x" (VInt 7) "x in [1, 2, 3]")
                         (Some "x") 1).
Proof.
  split.
  - apply (proj1 arguments_split_at_depth_zero
             [] (Token NAME "assert_x" (1, 0) (1, 8))
             (Token OP "(" (1, 8) (1, 9))
             [Token NAME "a" (1, 9) (1, 10)]
             [(Token OP "," (1, 10) (1, 11),
               [Token NAME "f" (1, 12) (1, 13); Token OP "(" (1, 13) (1, 14);
                Token NAME "b" (1, 14) (1, 15); Token OP "," (1, 15) (1, 16);
                Token NAME "c" (1, 17) (1, 18); Token OP ")" (1, 18) (1, 19)])]
             (Token OP ")" (1, 19) (1, 20))
             [Token NEWLINE "" (1, 20) (1, 21)] None);
      try reflexivity.
    repeat constructor.
  - apply (proj2 (proj2 (proj2 arguments_split_at_depth_zero))
             (script_stack 2)
             (script_world
                (source_line "x = 7"
                 ++ source_line "assert_satisfies(x, x in [1, 2, 3])"))
             [] (VInt 7) (VBool false)).
    + exists (Frame "script.py" "<module>" 2),
             (source_line "x = 7"
              ++ source_line "assert_satisfies(x, x in [1, 2, 3])")%string.
      repeat split; reflexivity.
    + reflexivity.
Defined.

(** ** Worked call sites *)

(** The tokens of the line [assert_satisfies(x, x in [1, 2, 3])]. *)
Example tokens_of_nested_call :
  fst (generate_tokens [source_line "assert_satisfies(x, x in [1, 2, 3])"])
  = [Token NAME "assert_satisfies" (1, 0) (1, 16);
     Token OP "(" (1, 16) (1, 17);
     Token NAME "x" (1, 17) (1, 18);
     Token OP "," (1, 18) (1, 19);
     Token NAME "x" (1, 20) (1, 21);
     Token NAME "in" (1, 22) (1, 24);
     Token OP "[" (1, 25) (1, 26);
     Token NUMBER "1" (1, 26) (1, 27);
     Token OP "," (1, 27) (1, 28);
     Token NUMBER "2" (1, 29) (1, 30);
     Token OP "," (1, 30) (1, 31);
     Token NUMBER "3" (1, 32) (1, 33);
     Token OP "]" (1, 33) (1, 34);
     Token OP ")" (1, 34) (1, 35);
     Token NEWLINE (String newline_char "") (1, 35) (1, 36);
     Token ENDMARKER "" (2, 0) (2, 0)].
Proof. vm_compute; reflexivity. Qed.

(** A literal in triple quotes that runs over two lines is one STRING
    token, and a last line without a line feed is closed by a NEWLINE
    token of its own. *)
Example tokens_of_multiline_literal :
  generate_tokens [source_line "call('''a"; "b''', 3)"]
  = ([Token NAME "call" (1, 0) (1, 4);
      Token OP "(" (1, 4) (1, 5);
      Token STRING (source_line "'''a" ++ "b'''")%string (1, 5) (2, 4);
      Token OP "," (2, 4) (2, 5);
      Token NUMBER "3" (2, 6) (2, 7);
      Token OP ")" (2, 7) (2, 8);
      Token NEWLINE "" (2, 8) (2, 9);
      Token ENDMARKER "" (3, 0) (3, 0)], None).
Proof. vm_compute; reflexivity. Qed.

(** The text recovered for an argument written over two lines is put on
    one line. *)
Example arguments_of_multiline_call :
  extract_arguments
    (generate_tokens [source_line "assert_matches(s, '''a";
                      source_line "b''')"])
  = Ok ["s"; "'''a b'''"] /\
  extract_arguments
    (generate_tokens [source_line "assert_matches(s,";
                      source_line "    r'a+b')"])
  = Ok ["s"; "r'a+b'"].
Proof. split; vm_compute; reflexivity. Qed.

(** A wrapper reports the expression written at its caller: the walk up
    the stack leaves the frames of [_retrieve_assert_arguments],
    [assert_is_type] and [assert_is_int] behind. *)
Example wrapper_reports_caller_text :
  fst (assert_is_int false (script_stack 2) (VStr "4")
         (script_world (source_line "num_threads = '4'"
                        ++ source_line "    assert_is_int(num_threads)")))
  = Raise (H2OTypeError "num_threads" (VStr "4") (VType TInt) None 2).
Proof. vm_compute; reflexivity. Qed.

(** The message of the logic error is built with [%], whose right
    operand is the offending specification: a nested tuple of two
    alternatives is taken for two format arguments, and the builtin
    [TypeError] of the formatting is raised in place of [RuntimeError]. *)
Example nested_pair_raises_type_error :
  _check_type false (VStr "a")
              (VTuple [VTuple [VType TInt; VType TFloat]]) false
  = Raise TypeError.
Proof. reflexivity. Qed.

(* ================================================================= *)
(** * Further properties *)

(** ** The typed wrappers *)

Section WrapperFacts.

Variable PY2 : bool.

Lemma assert_is_type_returns_iff (stack : list frame) (var spec : value)
    (msg : option string) (skip : Z) (w : world) :
  fst (assert_is_type PY2 stack var spec msg skip w) = Ok tt <->
  _check_type PY2 var spec false = Ok true.
Proof.
  destruct (_check_type PY2 var spec false) as [[|] | e] eqn:E.
  - rewrite (assert_is_type_pass PY2 stack var spec msg skip w E).
    split; reflexivity.
  - rewrite (assert_is_type_fail PY2 stack var spec msg skip w E).
    unfold bind.
    destruct (_retrieve_assert_arguments _ w) as [[args | e] w'];
      [| split; discriminate].
    unfold lift, raise; destruct (item0 args); split; discriminate.
  - rewrite (assert_is_type_raise PY2 stack var spec msg skip w e E).
    split; discriminate.
Qed.

Lemma check_type_numeric (v : value) :
  _check_type PY2 v (VTuple [VType TInt; VType TFloat]) false
  = is_numeric PY2 v.
Proof.
  destruct (plain_or_raising v) as [Hv | (name & error & ->)].
  - rewrite check_type_alternatives by (try exact Hv; repeat constructor).
    rewrite is_numeric_value by exact Hv; cbn [existsb conforms].
    now rewrite orb_false_r.
  - rewrite check_type_tuple; cbn [any_gen]; rewrite !check_type_class.
    unfold is_numeric, _num_type, _int_type; destruct PY2;
      cbn [pytype_eqb isinstance];
      rewrite !instance_of_class_raising by reflexivity;
      destruct (String.eqb error "AttributeError"); reflexivity.
Qed.

(** X1: the wrappers agree with the predicates.  [assert_is_str],
    [assert_is_int] and [assert_is_numeric] return normally on exactly
    the values for which [is_str], [is_int] and [is_numeric] answer
    [True], on Python 2 as on Python 3. *)
Theorem wrappers_agree_with_predicates (stack : list frame) (v : value)
    (w : world) :
  (fst (assert_is_str PY2 stack v w) = Ok tt <-> is_str PY2 v = Ok true) /\
  (fst (assert_is_int PY2 stack v w) = Ok tt <-> is_int PY2 v = Ok true) /\
  (fst (assert_is_numeric PY2 stack v w) = Ok tt <->
   is_numeric PY2 v = Ok true).
Proof.
  unfold assert_is_str, assert_is_int, assert_is_numeric.
  rewrite !assert_is_type_returns_iff, check_type_numeric.
  repeat split; intros H; exact H.
Qed.

Lemma check_type_singleton (v a : value) :
  is_atomic a = true ->
  _check_type PY2 v (VTuple [a]) false = _check_type PY2 v a false.
Proof.
  intros Ha; rewrite check_type_tuple; cbn [any_gen].
  rewrite (check_type_atomic_nested PY2 v a true Ha).
  now destruct (_check_type PY2 v a false) as [[|] |].
Qed.

Lemma any_gen_app {A} (f : A -> result bool) (l1 l2 : list A) :
  any_gen f (l1 ++ l2)
  = match any_gen f l1 with
    | Ok false => any_gen f l2
    | r => r
    end.
Proof.
  induction l1 as [| x l1 IH]; [reflexivity |]; cbn [app any_gen].
  now destruct (f x) as [[|] |].
Qed.

Lemma check_type_with_none (v : value) (alts : list value) :
  Forall (fun alt => is_atomic alt = true) alts ->
  _check_type PY2 v (VTuple (alts ++ [VNone])) false = Ok true <->
  v = VNone \/ _check_type PY2 v (VTuple alts) false = Ok true.
Proof.
  intros Halts.
  assert (Hnone : is_None v = true <-> v = VNone)
    by (destruct v; simpl; split; congruence).
  assert (Hret : v = VNone ->
                 exists b, _check_type PY2 v (VTuple alts) false = Ok b).
  { intros ->; rewrite check_type_alternatives by (auto; reflexivity).
    eauto. }
  rewrite !check_type_tuple in *; rewrite any_gen_app; cbn [any_gen].
  change (_check_type PY2 v VNone true) with (@Ok bool (is_None v)).
  destruct (any_gen (fun alt => _check_type PY2 v alt true) alts)
    as [[|] | e].
  - split; auto.
  - destruct (is_None v) eqn:E; split; auto.
    + intros _; left; now apply Hnone.
    + intros [H | H]; [apply Hnone in H |]; congruence.
  - split; [discriminate |].
    intros [H | H]; [destruct (Hret H) as [b Hb] |]; discriminate.
Qed.

(** X2: the [maybe] wrappers accept [None] besides what the plain
    wrappers accept.  Each of [assert_maybe_str], [assert_maybe_int] and
    [assert_maybe_numeric] returns normally exactly when the value is
    [None] or the corresponding [assert_is_] wrapper returns normally. *)
Theorem maybe_wrappers_add_none (stack : list frame) (v : value)
    (w : world) :
  (fst (assert_maybe_str PY2 stack v w) = Ok tt <->
   v = VNone \/ fst (assert_is_str PY2 stack v w) = Ok tt) /\
  (fst (assert_maybe_int PY2 stack v w) = Ok tt <->
   v = VNone \/ fst (assert_is_int PY2 stack v w) = Ok tt) /\
  (fst (assert_maybe_numeric PY2 stack v w) = Ok tt <->
   v = VNone \/ fst (assert_is_numeric PY2 stack v w) = Ok tt).
Proof.
  unfold assert_maybe_str, assert_maybe_int, assert_maybe_numeric,
    assert_is_str, assert_is_int, assert_is_numeric.
  rewrite !assert_is_type_returns_iff.
  rewrite <- (check_type_singleton v (VType TStr) eq_refl).
  rewrite <- (check_type_singleton v (VType TInt) eq_refl).
  repeat split.
  - apply (check_type_with_none v [VType TStr]); repeat constructor.
  - apply (check_type_with_none v [VType TStr]); repeat constructor.
  - apply (check_type_with_none v [VType TInt]); repeat constructor.
  - apply (check_type_with_none v [VType TInt]); repeat constructor.
  - apply (check_type_with_none v [VType TInt; VType TFloat]);
      repeat constructor.
  - apply (check_type_with_none v [VType TInt; VType TFloat]);
      repeat constructor.
Qed.

(** X3: [assert_is_bool] is exact, and [assert_is_none] accepts [None]
    alone.  [assert_is_bool] returns normally exactly on instances of
    [bool]; no integer passes it, although every boolean passes
    [assert_is_int].  [assert_is_none] returns normally exactly on
    [None]. *)
Theorem bool_and_none_wrappers (stack : list frame) (v : value) (w : world) :
  (fst (assert_is_bool PY2 stack v w) = Ok tt <->
   issubclass (type_of v) TBool = true) /\
  (forall z, fst (assert_is_bool PY2 stack (VInt z) w) <> Ok tt) /\
  (forall b, fst (assert_is_bool PY2 stack (VBool b) w) = Ok tt /\
             fst (assert_is_int PY2 stack (VBool b) w) = Ok tt) /\
  (fst (assert_is_none PY2 stack v w) = Ok tt <-> v = VNone).
Proof.
  unfold assert_is_bool, assert_is_none, assert_is_int.
  split; [| split; [| split]].
  - rewrite assert_is_type_returns_iff, check_type_class; cbn [pytype_eqb].
    apply instance_of_class_true.
  - intros z; rewrite assert_is_type_returns_iff; cbn; discriminate.
  - intros b; rewrite !assert_is_type_returns_iff; split; [reflexivity |].
    now rewrite (check_type_atomic PY2 (VBool b) (VType TInt) false
                   eq_refl eq_refl).
  - rewrite assert_is_type_returns_iff; destruct v; cbn; split; congruence.
Qed.

End WrapperFacts.

(** ** The walk up the stack *)

Lemma walk_up_app_own (own stack : list frame) :
  forallb is_own_frame own = true ->
  walk_up (own ++ stack) = walk_up stack.
Proof.
  induction own as [| fr own IH]; intros H; [reflexivity |].
  cbn [forallb] in H; apply andb_true_iff in H as [Hfr Hown].
  unfold is_own_frame in Hfr; cbn [app walk_up]; rewrite Hfr; auto.
Qed.

Lemma walk_up_none_iff (stack : list frame) :
  walk_up stack = None <-> forallb is_own_frame stack = true.
Proof.
  induction stack as [| f stack IH]; [split; reflexivity |].
  cbn [walk_up forallb]; unfold is_own_frame at 1.
  destruct (String.eqb (co_filename f) this_filename); [exact IH |].
  split; discriminate.
Qed.

(** X4: the frame the introspector reads is the innermost frame outside
    this file.  [walk_up] returns a frame exactly when the stack is some
    frames of this file, then that frame, which is not of this file; it
    returns nothing exactly when every frame is of this file. *)
Theorem walk_up_finds_first_outside_frame (stack : list frame) :
  (forall fr,
      walk_up stack = Some fr <->
      exists own rest,
        stack = own ++ fr :: rest /\
        forallb is_own_frame own = true /\
        is_own_frame fr = false) /\
  (walk_up stack = None <-> forallb is_own_frame stack = true).
Proof.
  split.
  - intros fr; split.
    + induction stack as [| f stack IH]; [discriminate |].
      cbn [walk_up]; destruct (String.eqb (co_filename f) this_filename) eqn:E.
      * intros H; destruct (IH H) as (own & rest & -> & Hown & Hfr).
        exists (f :: own), rest; repeat split; auto.
        cbn [forallb]; unfold is_own_frame at 1; now rewrite E.
      * intros [= ->]; exists [], stack; repeat split; auto.
    + intros (own & rest & -> & Hown & Hfr).
      rewrite (walk_up_app_own own (fr :: rest) Hown).
      unfold is_own_frame in Hfr; cbn [walk_up]; now rewrite Hfr.
  - apply walk_up_none_iff.
Qed.

(** X5: the introspector does not depend on how deep inside this file it
    is called.  Whatever frames of this file lie on top of the caller's
    stack (an entry point, a wrapper and an entry point, or more), the
    result and the files opened are the same. *)
Theorem retrieve_ignores_own_frames (own stack : list frame) (w : world) :
  forallb is_own_frame own = true ->
  _retrieve_assert_arguments (own ++ stack) w
  = _retrieve_assert_arguments stack w.
Proof.
  intros H; unfold _retrieve_assert_arguments.
  rewrite !walk_up_own_frame, (walk_up_app_own own stack H); reflexivity.
Qed.

Lemma retrieve_ignores_own_frames_witness :
  _retrieve_assert_arguments
    ([Frame this_filename "assert_is_type" 78;
      Frame this_filename "assert_is_int" 98] ++ script_stack 1)
    (script_world (source_line "assert_is_int(n)"))
  = _retrieve_assert_arguments (script_stack 1)
      (script_world (source_line "assert_is_int(n)")).
Proof.
  apply (retrieve_ignores_own_frames
           [Frame this_filename "assert_is_type" 78;
            Frame this_filename "assert_is_int" 98]
           (script_stack 1)
           (script_world (source_line "assert_is_int(n)"))).
  reflexivity.
Defined.

Lemma retrieve_no_caller (stack : list frame) (w : world) :
  walk_up stack = None ->
  _retrieve_assert_arguments stack w = (Raise AttributeError, w).
Proof.
  intros H; unfold _retrieve_assert_arguments.
  rewrite walk_up_own_frame, H; reflexivity.
Qed.

(** X6: no frame outside this file.  When every frame of the stack is of
    this file the walk ends at [None], and a failing [assert_is_type],
    [assert_matches] or [assert_satisfies] raises [AttributeError]
    without opening any file. *)
Theorem no_outside_frame_raises_attribute_error (PY2 : bool)
    (stack : list frame) (w : world) :
  forallb is_own_frame stack = true ->
  (forall var spec msg skip,
      _check_type PY2 var spec false = Ok false ->
      assert_is_type PY2 stack var spec msg skip w
      = (Raise AttributeError, w)) /\
  (forall s r,
      re_match r s = None ->
      assert_matches stack (VStr s) r w = (Raise AttributeError, w)) /\
  (forall v cond,
      truthy cond = false ->
      assert_satisfies stack v cond w = (Raise AttributeError, w)).
Proof.
  intros Hown.
  assert (Hnone : walk_up stack = None)
    by now apply walk_up_none_iff.
  repeat split.
  - intros var spec msg skip H.
    rewrite (assert_is_type_fail PY2 stack var spec msg skip w H).
    unfold bind.
    now rewrite (retrieve_no_caller
                   (Frame this_filename "assert_is_type" 78 :: stack) w Hnone).
  - intros s r H; rewrite (assert_matches_fail stack s r w H).
    unfold bind.
    now rewrite (retrieve_no_caller
                   (Frame this_filename "assert_matches" 132 :: stack) w Hnone).
  - intros v cond H; rewrite (assert_satisfies_fail stack v cond w H).
    unfold bind.
    now rewrite (retrieve_no_caller
                   (Frame this_filename "assert_satisfies" 146 :: stack) w
                   Hnone).
Qed.

Lemma no_outside_frame_raises_attribute_error_witness :
  assert_satisfies [Frame this_filename "helper" 300] (VInt 0) (VBool false)
                   interactive_world
  = (Raise AttributeError, interactive_world).
Proof.
  apply (proj2 (proj2 (no_outside_frame_raises_attribute_error false
                         [Frame this_filename "helper" 300]
                         interactive_world eq_refl))).
  reflexivity.
Defined.

Lemma skip_lines_short (n : nat) (lines : list string) :
  List.length lines < n -> skip_lines n lines = Raise StopIteration.
Proof.
  revert lines; induction n as [| n IH]; intros lines H; [lia |].
  destruct lines as [| l lines]; [reflexivity |].
  simpl in *; apply IH; lia.
Qed.

Lemma skip_lines_enough (n : nat) (lines : list string) :
  n <= List.length lines -> skip_lines n lines = Ok (skipn n lines).
Proof.
  revert lines; induction n as [| n IH]; intros lines H; [reflexivity |].
  destruct lines as [| l lines]; simpl in *; [lia |].
  apply IH; lia.
Qed.

(** X7: a line number beyond the end of the file.  When the caller's
    file has fewer than [f_lineno - 1] lines, skipping to the call line
    runs off the end of the file and the introspector raises
    [StopIteration], after opening the file; with enough lines it
    tokenizes the file from line [f_lineno] on. *)
Theorem retrieve_line_beyond_end (stack : list frame) (fr : frame)
    (text : string) (w : world) :
  walk_up stack = Some fr ->
  files w (co_filename fr) = Some text ->
  (List.length (split_lines text) < f_lineno fr - 1 ->
   _retrieve_assert_arguments stack w
   = (Raise StopIteration, World (files w) (co_filename fr :: opened w))) /\
  (f_lineno fr - 1 <= List.length (split_lines text) ->
   _retrieve_assert_arguments stack w
   = (extract_arguments
        (generate_tokens (skipn (f_lineno fr - 1) (split_lines text))),
      World (files w) (co_filename fr :: opened w))).
Proof.
  intros Hfr Htext; rewrite (retrieve_opens_caller stack fr w Hfr).
  unfold bind, open_file, lift; rewrite Htext; split; intros H.
  - now rewrite (skip_lines_short _ _ H).
  - now rewrite (skip_lines_enough _ _ H).
Qed.

Lemma retrieve_line_beyond_end_witness :
  _retrieve_assert_arguments (script_stack 5)
    (script_world (source_line "assert_is_int(n)"))
  = (Raise StopIteration,
     World (files (script_world (source_line "assert_is_int(n)")))
           ["script.py"]).
Proof.
  apply (proj1 (retrieve_line_beyond_end (script_stack 5)
                  (Frame "script.py" "<module>" 5)
                  (source_line "assert_is_int(n)")
                  (script_world (source_line "assert_is_int(n)"))
                  eq_refl eq_refl)).
  vm_compute; lia.
Defined.

(** ** The scanner off the expected path *)

Lemma closes_not_comma (t : token) :
  closes_bracket t = true -> is_op t "," = false.
Proof.
  unfold closes_bracket, is_op; intros H.
  apply andb_true_iff in H as [-> H]; cbn [andb].
  destruct (String.eqb_spec (tstring t) ",") as [E |]; [| reflexivity].
  rewrite E in H; discriminate H.
Qed.

(** X8: a closing bracket that matches no opening one.  After the
    opening parenthesis of the call and any tokens that leave the depth
    at 0, a closing bracket other than [)] would make the depth negative:
    the scanner raises [AssertionError] with the parse-error message,
    whatever follows. *)
Theorem unmatched_bracket_raises (a : list token) (t : token)
    (g : list token) (tail : option exn) (done : list (list token))
    (cur : list token) (level : Z) :
  is_argument level a = true ->
  closes_bracket t = true ->
  opens_bracket t = false ->
  is_op t ")" = false ->
  scan_tokens (a ++ t :: g) tail 2 (done ++ [cur]) level
  = Raise (AssertionError (Some MsgParseLevel)).
Proof.
  intros Ha Hc Ho Hp.
  rewrite (scan_argument a level done cur (t :: g) tail Ha).
  cbn [scan_tokens].
  rewrite (closes_not_comma t Hc), Hp, Hc, Ho; reflexivity.
Qed.

Lemma unmatched_bracket_raises_witness :
  scan_tokens
    [Token NAME "assert_x" (1, 0) (1, 8); Token OP "(" (1, 8) (1, 9);
     Token NAME "a" (1, 9) (1, 10); Token OP "]" (1, 10) (1, 11);
     Token OP ")" (1, 11) (1, 12)]
    None 0 [] 0
  = Raise (AssertionError (Some MsgParseLevel)).
Proof.
  apply (unmatched_bracket_raises
           [Token NAME "a" (1, 9) (1, 10)] (Token OP "]" (1, 10) (1, 11))
           [Token OP ")" (1, 11) (1, 12)] None [] [] 0%Z);
    reflexivity.
Defined.

(** X9: the assertion name must be followed by its parenthesis.  When
    the first name that starts with [assert_] is followed by anything
    but [(], as on a line that only mentions the function, the scanner
    raises [AssertionError]; when the generator ends right after the
    name, the list of arguments is empty. *)
Theorem name_without_parenthesis (pre : list token) (name t : token)
    (g : list token) (tail : option exn) :
  forallb (fun t => negb (is_assert_name t)) pre = true ->
  is_assert_name name = true ->
  (is_op t "(" = false ->
   scan_tokens (pre ++ name :: t :: g) tail 0 [] 0
   = Raise (AssertionError None)) /\
  scan_tokens (pre ++ [name]) None 0 [] 0 = Ok [].
Proof.
  intros Hpre Hname.
  assert (Hskip : forall g', scan_tokens (pre ++ name :: g') tail 0 [] 0
                             = scan_tokens g' tail 1 [] 0).
  { intros g'; induction pre as [| p pre IH].
    - unfold is_assert_name in Hname.
      apply andb_true_iff in Hname as [Hty Hpx].
      cbn [app scan_tokens]; now rewrite Hty, Hpx.
    - cbn [forallb] in Hpre; apply andb_true_iff in Hpre as [Hp Hpre].
      apply negb_true_iff in Hp; unfold is_assert_name in Hp.
      cbn [app scan_tokens].
      destruct (toktype_eqb (ttype p) NAME); simpl in Hp |- *;
        [rewrite Hp; simpl |]; now apply IH. }
  split.
  - intros Ht; rewrite Hskip; cbn [scan_tokens]; now rewrite Ht.
  - clear Hskip; induction pre as [| p pre IH].
    + unfold is_assert_name in Hname.
      apply andb_true_iff in Hname as [Hty Hpx].
      cbn [app scan_tokens]; now rewrite Hty, Hpx.
    + cbn [forallb] in Hpre; apply andb_true_iff in Hpre as [Hp Hpre].
      apply negb_true_iff in Hp; unfold is_assert_name in Hp.
      cbn [app scan_tokens].
      destruct (toktype_eqb (ttype p) NAME); simpl in Hp |- *;
        [rewrite Hp; simpl |]; now apply IH.
Qed.

Lemma name_without_parenthesis_witness :
  scan_tokens
    [Token NAME "check" (1, 0) (1, 5); Token OP "=" (1, 6) (1, 7);
     Token NAME "assert_is_int" (1, 8) (1, 21);
     Token NEWLINE "" (1, 21) (1, 22)]
    None 0 [] 0
  = Raise (AssertionError None).
Proof.
  apply (proj1 (name_without_parenthesis
                  [Token NAME "check" (1, 0) (1, 5);
                   Token OP "=" (1, 6) (1, 7)]
                  (Token NAME "assert_is_int" (1, 8) (1, 21))
                  (Token NEWLINE "" (1, 21) (1, 22)) [] None
                  eq_refl eq_refl)).
  reflexivity.
Defined.

Lemma scan_no_assert_name (g : list token) (tail : option exn) :
  forallb (fun t => negb (is_assert_name t)) g = true ->
  scan_tokens g tail 0 [] 0
  = match tail with Some e => Raise e | None => Ok [] end.
Proof.
  induction g as [| t g IH]; intros H; [reflexivity |].
  cbn [forallb] in H; apply andb_true_iff in H as [Ht Hg].
  apply negb_true_iff in Ht; unfold is_assert_name in Ht.
  cbn [scan_tokens].
  destruct (toktype_eqb (ttype t) NAME); simpl in Ht |- *;
    [rewrite Ht; simpl |]; now apply IH.
Qed.

(** X10: a call made under another name.  When no name from the call
    line on starts with [assert_] (the assertion was called through an
    alias), the introspector recovers no text at all.  If the tokenizer
    reaches the end of the caller's file, the failing assertion raises
    [IndexError] ([assert_is_type], [assert_matches]) or [ValueError]
    ([assert_satisfies]); if the tokenizer stops on an error of its own
    (an [IndentationError] below a nested block, say), that error is
    raised.  In both cases the violation is lost. *)
Theorem aliased_call_loses_violation (PY2 : bool) (stack : list frame)
    (w : world) (lines : list string) :
  call_site stack w lines ->
  forallb (fun t => negb (is_assert_name t)) (fst (generate_tokens lines))
  = true ->
  (forall var spec msg skip,
      _check_type PY2 var spec false = Ok false ->
      fst (assert_is_type PY2 stack var spec msg skip w)
      = Raise (match snd (generate_tokens lines) with
               | Some e => e
               | None => IndexError
               end)) /\
  (forall s r,
      re_match r s = None ->
      fst (assert_matches stack (VStr s) r w)
      = Raise (match snd (generate_tokens lines) with
               | Some e => e
               | None => IndexError
               end)) /\
  (forall v cond,
      truthy cond = false ->
      fst (assert_satisfies stack v cond w)
      = Raise (match snd (generate_tokens lines) with
               | Some e => e
               | None => ValueError
               end)).
Proof.
  intros Hsite Hnames.
  assert (Hargs : extract_arguments (generate_tokens lines)
                  = match snd (generate_tokens lines) with
                    | Some e => Raise e
                    | None => Ok []
                    end).
  { unfold extract_arguments.
    rewrite (scan_no_assert_name _ _ Hnames).
    now destruct (snd (generate_tokens lines)). }
  repeat split.
  - intros var spec msg skip H.
    rewrite (assert_is_type_fail PY2 stack var spec msg skip w H).
    destruct (retrieve_at_call_site
                (Frame this_filename "assert_is_type" 78 :: stack) w lines
                Hsite) as [w' Hr].
    unfold bind; rewrite Hr, Hargs.
    now destruct (snd (generate_tokens lines)).
  - intros s r H; rewrite (assert_matches_fail stack s r w H).
    destruct (retrieve_at_call_site
                (Frame this_filename "assert_matches" 132 :: stack) w lines
                Hsite) as [w' Hr].
    unfold bind; rewrite Hr, Hargs.
    now destruct (snd (generate_tokens lines)).
  - intros v cond H; rewrite (assert_satisfies_fail stack v cond w H).
    destruct (retrieve_at_call_site
                (Frame this_filename "assert_satisfies" 146 :: stack) w lines
                Hsite) as [w' Hr].
    unfold bind; rewrite Hr, Hargs.
    now destruct (snd (generate_tokens lines)).
Qed.

Lemma aliased_call_loses_violation_witness :
  fst (assert_is_type false (script_stack 1) (VStr "4") (VType TInt) None 1
         (script_world (source_line "check(num_threads, int)")))
  = Raise IndexError /\
  fst (assert_is_type false (script_stack 3) (VStr "4") (VType TInt) None 1
         (script_world (source_line "def f(n):"
                        ++ source_line "    if n:"
                        ++ source_line "        check(n, int)"
                        ++ source_line "    return n")))
  = Raise IndentationError.
Proof.
  split.
  - apply (proj1 (aliased_call_loses_violation false (script_stack 1)
                    (script_world (source_line "check(num_threads, int)"))
                    [source_line "check(num_threads, int)"]
                    (ex_intro _ (Frame "script.py" "<module>" 1)
                       (ex_intro _ (source_line "check(num_threads, int)")
                          (conj eq_refl (conj eq_refl eq_refl))))
                    eq_refl)).
    reflexivity.
  - apply (proj1 (aliased_call_loses_violation false (script_stack 3)
                    (script_world (source_line "def f(n):"
                                   ++ source_line "    if n:"
                                   ++ source_line "        check(n, int)"
                                   ++ source_line "    return n"))
                    [source_line "        check(n, int)";
                     source_line "    return n"]
                    (ex_intro _ (Frame "script.py" "<module>" 3)
                       (ex_intro _ (source_line "def f(n):"
                                    ++ source_line "    if n:"
                                    ++ source_line "        check(n, int)"
                                    ++ source_line "    return n")%string
                          (conj eq_refl (conj eq_refl eq_refl))))
                    eq_refl)).
    reflexivity.
Defined.

(** X11: nothing after the closing parenthesis matters.  Once the
    scanner has stopped at the closing parenthesis of the call, neither
    the tokens that follow in the file nor an error the tokenizer would
    raise on them changes the arguments recovered: the generator is not
    consumed past that token. *)
Theorem scan_stops_at_closing_parenthesis (g : list token) :
  forall (e : exn) (step : nat) (args_tokens : list (list token))
         (level : Z) (args : list (list token)) (post : list token)
         (tail : option exn),
    scan_tokens g (Some e) step args_tokens level = Ok args ->
    scan_tokens (g ++ post) tail step args_tokens level = Ok args.
Proof.
  induction g as [| t g IH]; intros e step at' level args post tail H;
    [discriminate H |].
  cbn [app]; cbn [scan_tokens] in H |- *.
  destruct step as [| [| [| step]]].
  - destruct (negb (toktype_eqb (ttype t) NAME)); [eauto |].
    destruct (negb (String.prefix "assert_" (tstring t))); eauto.
  - destruct (is_op t "("); [eauto | discriminate H].
  - destruct ((level =? 0)%Z && is_op t ","); [eauto |].
    destruct ((level =? 0)%Z && is_op t ")"); [exact H |].
    match goal with
    | |- context [if ?c then Raise _ else _] => destruct c
    end; [discriminate H |].
    destruct (append_to_last at' t); [| discriminate H].
    cbn [rbind] in H |- *; eauto.
  - eauto.
Qed.

Lemma scan_stops_at_closing_parenthesis_witness :
  scan_tokens
    ([Token NAME "assert_x" (1, 0) (1, 8); Token OP "(" (1, 8) (1, 9);
      Token NAME "a" (1, 9) (1, 10); Token OP ")" (1, 10) (1, 11)]
       ++ [Token OP "]" (1, 11) (1, 12); Token OP "(" (1, 12) (1, 13)])
    (Some TokenError) 0 [] 0
  = Ok [[Token NAME "a" (1, 9) (1, 10)]].
Proof.
  apply (scan_stops_at_closing_parenthesis
           [Token NAME "assert_x" (1, 0) (1, 8); Token OP "(" (1, 8) (1, 9);
            Token NAME "a" (1, 9) (1, 10); Token OP ")" (1, 10) (1, 11)]
           StopIteration 0 [] 0%Z [[Token NAME "a" (1, 9) (1, 10)]]
           [Token OP "]" (1, 11) (1, 12); Token OP "(" (1, 12) (1, 13)]
           (Some TokenError)).
  reflexivity.
Defined.

(** ** The recovered texts *)

Lemma map_result_length {A B} (f : A -> result B) (l : list A)
    (r : list B) :
  map_result f l = Ok r -> List.length r = List.length l.
Proof.
  revert r; induction l as [| x l IH]; intros r H; simpl in H.
  - now injection H as <-.
  - destruct (f x); [| discriminate H]; simpl in H.
    destruct (map_result f l); [| discriminate H]; simpl in H.
    injection H as <-; simpl; f_equal; now apply IH.
Qed.

Lemma map_result_forall {A B} (f : A -> result B) (P : B -> Prop)
    (l : list A) (r : list B) :
  (forall x y, f x = Ok y -> P y) ->
  map_result f l = Ok r -> Forall P r.
Proof.
  intros Hf; revert r; induction l as [| x l IH]; intros r H; simpl in H.
  - injection H as <-; constructor.
  - destruct (f x) eqn:E; [| discriminate H]; simpl in H.
    destruct (map_result f l); [| discriminate H]; simpl in H.
    injection H as <-; constructor; eauto.
Qed.

(** X12: one text per argument.  On a call with [n] commas at bracket
    depth 0 the introspector, when it returns, returns exactly [n + 1]
    texts, whatever the arguments look like. *)
Theorem one_text_per_argument (pre : list token) (name lp : token)
    (first : list token) (more : list (token * list token)) (rp : token)
    (rest : list token) (tail : option exn) (texts : list string) :
  forallb (fun t => negb (is_assert_name t)) pre = true ->
  is_assert_name name = true ->
  is_op lp "(" = true ->
  is_argument 0 first = true ->
  Forall (fun p => is_op (fst p) "," = true
                   /\ is_argument 0 (snd p) = true) more ->
  is_op rp ")" = true ->
  extract_arguments
    (pre ++ name :: lp :: join_arguments first more ++ rp :: rest, tail)
  = Ok texts ->
  List.length texts = S (List.length more).
Proof.
  intros Hpre Hname Hlp Hf Hm Hrp; unfold extract_arguments; cbn [fst snd].
  rewrite (scan_find_call pre name lp _ tail Hpre Hname Hlp).
  pose proof (scan_call more first 0%Z [] [] rp rest tail Hf Hm Hrp) as Hs.
  cbn [app] in Hs; rewrite Hs.
  cbn [rbind]; intros H; apply map_result_length in H.
  rewrite H; cbn [List.length]; now rewrite length_map.
Qed.

Lemma one_text_per_argument_witness :
  List.length ["a"; "f(b, c)"] = 2.
Proof.
  apply (one_text_per_argument
           [] (Token NAME "assert_x" (1, 0) (1, 8))
           (Token OP "(" (1, 8) (1, 9))
           [Token NAME "a" (1, 9) (1, 10)]
           [(Token OP "," (1, 10) (1, 11),
             [Token NAME "f" (1, 12) (1, 13); Token OP "(" (1, 13) (1, 14);
              Token NAME "b" (1, 14) (1, 15); Token OP "," (1, 15) (1, 16);
              Token NAME "c" (1, 17) (1, 18); Token OP ")" (1, 18) (1, 19)])]
           (Token OP ")" (1, 19) (1, 20))
           [Token NEWLINE "" (1, 20) (1, 21)] None ["a"; "f(b, c)"]);
    try reflexivity.
  repeat constructor.
Defined.

Lemma is_space_newline : is_space newline_char = true.
Proof. reflexivity. Qed.

Lemma replace_newlines_no_newline (s : string) :
  string_forallb (fun c => negb (Ascii.eqb c newline_char))
                 (replace_newlines s) = true.
Proof.
  induction s as [| c s IH]; [reflexivity |]; simpl; rewrite IH.
  destruct (Ascii.eqb c newline_char) eqn:E; [reflexivity |].
  now rewrite E.
Qed.

Lemma replace_newlines_first (s : string) :
  first_char (replace_newlines s)
  = option_map (fun c => if Ascii.eqb c newline_char then " "%char else c)
               (first_char s).
Proof. destruct s; reflexivity. Qed.

Lemma replace_newlines_last (s : string) :
  last_char (replace_newlines s)
  = option_map (fun c => if Ascii.eqb c newline_char then " "%char else c)
               (last_char s).
Proof.
  induction s as [| c s IH]; [reflexivity |].
  destruct s as [| d s]; [reflexivity |].
  cbn [replace_newlines last_char] in IH |- *; exact IH.
Qed.

Lemma lstrip_first (s : string) :
  match first_char (lstrip s) with
  | Some c => is_space c = false
  | None => True
  end.
Proof.
  induction s as [| c s IH]; simpl; [exact I |].
  destruct (is_space c) eqn:E; [exact IH | exact E].
Qed.

Lemma rstrip_first (s : string) :
  match first_char s with
  | Some c => is_space c = false -> first_char (rstrip s) = Some c
  | None => True
  end.
Proof.
  destruct s as [| c s]; simpl; [exact I |].
  intros ->; reflexivity.
Qed.

Lemma rstrip_last (s : string) :
  match last_char (rstrip s) with
  | Some c => is_space c = false
  | None => True
  end.
Proof.
  induction s as [| c s IH]; simpl; [exact I |].
  destruct (is_space c) eqn:E; simpl.
  - destruct (rstrip s) as [| d r] eqn:Er; simpl; [exact I |].
    exact IH.
  - destruct (rstrip s) as [| d r] eqn:Er; simpl; [exact E |].
    exact IH.
Qed.

Lemma not_space_kept (c : ascii) :
  is_space c = false ->
  (if Ascii.eqb c newline_char then " "%char else c) = c.
Proof.
  intros H; destruct (Ascii.eqb_spec c newline_char) as [-> |];
    [discriminate H | reflexivity].
Qed.

Lemma strip_replace_trimmed (s : string) :
  is_trimmed_line (replace_newlines (strip s)) = true.
Proof.
  unfold is_trimmed_line, strip.
  rewrite replace_newlines_no_newline, replace_newlines_first,
    replace_newlines_last; cbn [andb].
  pose proof (lstrip_first s) as Hl.
  pose proof (rstrip_first (lstrip s)) as Hf.
  pose proof (rstrip_last (lstrip s)) as Hr.
  apply andb_true_iff; split.
  - destruct (lstrip s) as [| c t]; [reflexivity |].
    cbn [first_char] in Hl, Hf; rewrite (Hf Hl); cbn [option_map].
    now rewrite (not_space_kept c Hl), Hl.
  - destruct (last_char (rstrip (lstrip s))) as [c |]; [| reflexivity].
    cbn [option_map]; now rewrite (not_space_kept c Hr), Hr.
Qed.

(** X13: the texts handed to the error messages are single trimmed
    lines.  Every text the introspector returns holds no newline and
    neither starts nor ends with white space, on whatever tokens it was
    built from. *)
Theorem recovered_texts_are_trimmed (g : token_stream)
    (texts : list string) :
  extract_arguments g = Ok texts ->
  Forall (fun s => is_trimmed_line s = true) texts.
Proof.
  unfold extract_arguments; intros H.
  destruct (scan_tokens (fst g) (snd g) 0 [] 0) as [groups |];
    [| discriminate H].
  cbn [rbind] in H.
  apply (map_result_forall arg_text _ groups texts); [| exact H].
  intros at' y Hy; unfold arg_text in Hy.
  destruct (untokenize at'); [| discriminate Hy].
  cbn [rbind] in Hy; injection Hy as <-; apply strip_replace_trimmed.
Qed.

Lemma recovered_texts_are_trimmed_witness :
  Forall (fun s => is_trimmed_line s = true) ["x"; "x in [1,    2]"].
Proof.
  apply (recovered_texts_are_trimmed
           (generate_tokens [source_line "  assert_satisfies( x , x in [1,";
                             source_line "   2] )"])).
  vm_compute; reflexivity.
Defined.

(** ** What a violation carries, and what a call may touch *)

(** X14: the type violation names the first argument as written.  When
    the value does not match and the call site is readable,
    [assert_is_type] raises [H2OTypeError] whose name is the first text
    recovered from the call line, with the value, the expected type, the
    message and the number of frames to skip exactly as they were
    passed; the wrappers pass no message and 2 frames. *)
Theorem type_violation_payload (PY2 : bool) (stack : list frame)
    (var spec : value) (msg : option string) (skip : Z) (w : world)
    (lines : list string) (vname : string) (more : list string) :
  _check_type PY2 var spec false = Ok false ->
  call_site stack w lines ->
  extract_arguments (generate_tokens lines) = Ok (vname :: more) ->
  fst (assert_is_type PY2 stack var spec msg skip w)
  = Raise (H2OTypeError vname var spec msg skip) /\
  (spec = VType TInt ->
   fst (assert_is_int PY2 stack var w)
   = Raise (H2OTypeError vname var (VType TInt) None 2)).
Proof.
  intros H Hsite Hargs; split.
  - rewrite (assert_is_type_fail PY2 stack var spec msg skip w H).
    destruct (retrieve_at_call_site
                (Frame this_filename "assert_is_type" 78 :: stack) w lines
                Hsite) as [w' Hr].
    unfold bind; rewrite Hr, Hargs; reflexivity.
  - intros ->; unfold assert_is_int.
    rewrite (assert_is_type_fail PY2 _ var (VType TInt) None 2 w H).
    destruct (retrieve_at_call_site
                (Frame this_filename "assert_is_type" 78
                 :: Frame this_filename "assert_is_int" 98 :: stack)
                w lines Hsite) as [w' Hr].
    unfold bind; rewrite Hr, Hargs; reflexivity.
Qed.

Lemma type_violation_payload_witness :
  fst (assert_is_type false (script_stack 2) (VStr "4")
         (VTuple [VType TInt; VNone]) (Some "threads") 1
         (script_world (source_line "num_threads = '4'"
                        ++ source_line "assert_is_type(num_threads, (int, None))")))
  = Raise (H2OTypeError "num_threads" (VStr "4")
             (VTuple [VType TInt; VNone]) (Some "threads") 1).
Proof.
  apply (proj1 (type_violation_payload false (script_stack 2) (VStr "4")
                  (VTuple [VType TInt; VNone]) (Some "threads") 1
                  (script_world
                     (source_line "num_threads = '4'"
                      ++ source_line "assert_is_type(num_threads, (int, None))"))
                  [source_line "assert_is_type(num_threads, (int, None))"]
                  "num_threads" ["(int, None)"]
                  eq_refl
                  (ex_intro _ (Frame "script.py" "<module>" 2)
                     (ex_intro _
                        (source_line "num_threads = '4'"
                         ++ source_line
                              "assert_is_type(num_threads, (int, None))")%string
                        (conj eq_refl (conj eq_refl eq_refl))))
                  eq_refl)).
Defined.

Lemma opens_at_most_one_refl (w : world) : opens_at_most_one w w.
Proof. split; auto. Qed.

Lemma retrieve_opens_at_most_one (stack : list frame) (w : world) :
  opens_at_most_one w (snd (_retrieve_assert_arguments stack w)).
Proof.
  unfold _retrieve_assert_arguments.
  destruct (walk_up _) as [fr |]; [| apply opens_at_most_one_refl].
  unfold bind, open_file, lift.
  destruct (files w (co_filename fr)) as [text |].
  - destruct (skip_lines _ _); split; cbn; eauto.
  - split; cbn; eauto.
Qed.

Lemma snd_bind_lift_raise {A B C} (m : M A) (k : A -> result B)
    (h : B -> exn) (w : world) :
  snd (bind m (fun a => bind (lift (k a)) (fun b => @raise C (h b))) w)
  = snd (m w).
Proof.
  unfold bind, lift, raise; destruct (m w) as [[a | e] w']; [| reflexivity].
  destruct (k a); reflexivity.
Qed.

(** X15: an assertion only reads, and reads at most once.  Whatever the
    arguments and whatever the outcome, a call of [assert_is_type],
    [assert_matches] or [assert_satisfies] leaves the files as they are
    and calls [open] at most once. *)
Theorem assertions_open_at_most_one_file (PY2 : bool) (stack : list frame)
    (w : world) :
  (forall var spec msg skip,
      opens_at_most_one w
        (snd (assert_is_type PY2 stack var spec msg skip w))) /\
  (forall v r, opens_at_most_one w (snd (assert_matches stack v r w))) /\
  (forall v cond,
      opens_at_most_one w (snd (assert_satisfies stack v cond w))).
Proof.
  split; [| split].
  - intros var spec msg skip.
    destruct (_check_type PY2 var spec false) as [[|] | e] eqn:E.
    + rewrite (assert_is_type_pass PY2 stack var spec msg skip w E).
      apply opens_at_most_one_refl.
    + rewrite (assert_is_type_fail PY2 stack var spec msg skip w E).
      rewrite snd_bind_lift_raise; apply retrieve_opens_at_most_one.
    + rewrite (assert_is_type_raise PY2 stack var spec msg skip w e E).
      apply opens_at_most_one_refl.
  - intros v r; unfold assert_matches.
    destruct (text_of v) as [s |]; [| apply opens_at_most_one_refl].
    destruct (re_match r s); [apply opens_at_most_one_refl |].
    rewrite snd_bind_lift_raise; apply retrieve_opens_at_most_one.
  - intros v cond; unfold assert_satisfies.
    destruct (negb (truthy cond)); [| apply opens_at_most_one_refl].
    rewrite snd_bind_lift_raise; apply retrieve_opens_at_most_one.
Qed.

(** ** [assert_satisfies] and [assert_true] *)

Lemma assert_satisfies_returns_iff (stack : list frame) (v cond : value)
    (w : world) :
  fst (assert_satisfies stack v cond w) = Ok tt <-> truthy cond = true.
Proof.
  unfold assert_satisfies.
  destruct (truthy cond); cbn [negb]; [split; reflexivity |].
  unfold bind, lift, raise.
  destruct (_retrieve_assert_arguments _ w) as [[args | e] w'];
    [destruct (unpack2 args) |]; split; discriminate.
Qed.

(** X16: [assert_satisfies] looks at the condition alone.  It returns
    normally exactly when the condition is true, then without touching
    the environment; the value it is given has no part in the outcome
    and only appears in the error. *)
Theorem assert_satisfies_passes_iff (stack : list frame) (v cond : value)
    (w : world) :
  (fst (assert_satisfies stack v cond w) = Ok tt <-> truthy cond = true) /\
  (truthy cond = true -> assert_satisfies stack v cond w = (Ok tt, w)) /\
  (forall v',
      fst (assert_satisfies stack v cond w) = Ok tt <->
      fst (assert_satisfies stack v' cond w) = Ok tt).
Proof.
  split; [apply assert_satisfies_returns_iff | split].
  - intros Hc; unfold assert_satisfies; now rewrite Hc.
  - intros v'; now rewrite !assert_satisfies_returns_iff.
Qed.

Lemma assert_satisfies_passes_iff_witness :
  assert_satisfies interactive_stack (VStr "any") (VInt 3) interactive_world
  = (Ok tt, interactive_world).
Proof.
  apply (proj1 (proj2 (assert_satisfies_passes_iff interactive_stack
                         (VStr "any") (VInt 3) interactive_world))).
  reflexivity.
Defined.

(** X17: [assert_true] is the assertion without introspection.  It
    returns normally on the same conditions as [assert_satisfies], and
    when the condition is false it raises [H2OValueError] with the
    caller's message; in neither case does it open a file. *)
Theorem assert_true_never_reads (default_var_name : option string)
    (default_skip_frames : Z) (stack : list frame) (v cond : value)
    (message : string) (w : world) :
  (fst (assert_true default_var_name default_skip_frames cond message w)
   = Ok tt <->
   fst (assert_satisfies stack v cond w) = Ok tt) /\
  snd (assert_true default_var_name default_skip_frames cond message w) = w /\
  (truthy cond = false ->
   fst (assert_true default_var_name default_skip_frames cond message w)
   = Raise (H2OValueError (MsgText message) default_var_name
                          default_skip_frames)).
Proof.
  split; [| split].
  - rewrite assert_satisfies_returns_iff.
    unfold assert_true; destruct (truthy cond); cbn; split;
      try reflexivity; discriminate.
  - unfold assert_true; destruct (negb (truthy cond)); reflexivity.
  - intros H; unfold assert_true; now rewrite H.
Qed.

Lemma assert_true_never_reads_witness :
  fst (assert_true None 0 (VList []) "the list is empty" interactive_world)
  = Raise (H2OValueError (MsgText "the list is empty") None 0).
Proof.
  apply (proj2 (proj2 (assert_true_never_reads None 0 interactive_stack
                         VNone (VList []) "the list is empty"
                         interactive_world))).
  reflexivity.
Defined.

(** ** Patterns without metacharacters *)

Lemma prefix_app_iff (p s : string) :
  String.prefix p s = true <-> exists t, s = (p ++ t)%string.
Proof.
  revert s; induction p as [| c p IH]; intros s; simpl.
  - destruct s; split; eauto.
  - destruct s as [| d s]; [split; [discriminate | intros [t Ht]; discriminate Ht] |].
    change (prefix (String c p) (String d s))
      with (if ascii_dec c d then prefix p s else false).
    destruct (ascii_dec c d) as [-> | Hne].
    + rewrite IH; split; intros [t Ht]; exists t; congruence.
    + split; [discriminate | intros [t Ht]; congruence].
Qed.

Lemma prefix_matches_literal (p s : string) :
  prefix_matches (re_literal p) s = String.prefix p s.
Proof.
  apply eq_true_iff_eq.
  rewrite prefix_matches_lang, prefix_app_iff; split.
  - intros (s1 & s2 & -> & H); apply re_literal_only in H; subst; eauto.
  - intros [t ->]; exists p, t; split; [reflexivity | apply re_literal_lang].
Qed.

(** X18: a pattern without metacharacters is a [startswith] test.  With
    a pattern that is a plain string, [assert_matches] returns normally
    exactly when the checked string starts with it; the empty pattern
    accepts every string. *)
Theorem literal_pattern_is_startswith (stack : list frame) (p s : string)
    (w : world) :
  ((exists m, fst (assert_matches stack (VStr s) (re_literal p) w) = Ok m)
   <-> String.prefix p s = true) /\
  (exists m, fst (assert_matches stack (VStr s) (re_literal "") w) = Ok m).
Proof.
  assert (H : forall q,
             (exists m, fst (assert_matches stack (VStr s) (re_literal q) w)
                        = Ok m)
             <-> String.prefix q s = true).
  { intros q; rewrite <- prefix_matches_literal.
    destruct (prefix_matches (re_literal q) s) eqn:E; split.
    - intros _; reflexivity.
    - intros _.
      rewrite (assert_matches_pass stack s (re_literal q) w E); simpl; eauto.
    - intros [m Hm]; now apply assert_matches_no_match in Hm.
    - discriminate. }
  split; [apply H |].
  apply H; destruct s; reflexivity.
Qed.

(** ** Base classes *)

Lemma issubclass_object (t : pytype) : issubclass t TObject = true.
Proof. induction t; simpl; auto. Qed.

Lemma issubclass_cases (t u : pytype) :
  issubclass t u = true ->
  t = u \/
  match t with
  | TObject => False
  | TBool => u = TInt \/ u = TObject
  | TUser _ b => issubclass b u = true
  | _ => u = TObject
  end.
Proof.
  destruct t; cbn [issubclass]; intros H;
    apply orb_true_iff in H as [H | H];
    try (apply pytype_eqb_eq in H; subst; auto; fail);
    try discriminate H; auto.
  apply orb_true_iff in H as [H | H]; apply pytype_eqb_eq in H; subst; auto.
Qed.

Lemma issubclass_of_object (u : pytype) :
  issubclass TObject u = true -> u = TObject.
Proof.
  intros H; destruct (issubclass_cases TObject u H) as [<- | []]; reflexivity.
Qed.

Lemma issubclass_trans (t u v : pytype) :
  issubclass t u = true -> issubclass u v = true -> issubclass t v = true.
Proof.
  intros Htu Huv.
  assert (Hobj : forall t', u = TObject -> issubclass t' v = true).
  { intros t' ->; apply issubclass_of_object in Huv; subst.
    apply issubclass_object. }
  induction t;
    destruct (issubclass_cases _ _ Htu) as [<- | Hc]; auto;
    try contradiction.
  - destruct Hc as [-> | ->]; [| now apply Hobj].
    destruct (issubclass_cases _ _ Huv) as [<- | ->]; reflexivity.
  - cbn [issubclass]; apply orb_true_iff; right; now apply IHt.
Qed.

(** X19: what matches a class matches its base classes.  If the matcher
    accepts a value for a class, it accepts it for every base class of
    that class, the widened [str] and [int] of Python 2 included. *)
Theorem matching_is_upward_closed (PY2 : bool) (s : value) (t u : pytype) :
  _check_type PY2 s (VType t) false = Ok true ->
  issubclass t u = true ->
  _check_type PY2 s (VType u) false = Ok true.
Proof.
  intros H Htu.
  apply (check_type_atomic_true PY2 s (VType t) false eq_refl) in H.
  apply (check_type_atomic_true PY2 s (VType u) false eq_refl).
  assert (Hsub : issubclass (type_of s) t = true ->
                 conforms PY2 s (VType u) = true).
  { intros Hs; pose proof (issubclass_trans _ _ _ Hs Htu) as Hsu.
    destruct u; cbn [conforms]; rewrite ?Hsu; reflexivity. }
  destruct t; cbn [conforms] in H; auto.
  - apply orb_true_iff in H as [H | H]; [auto |].
    destruct (issubclass_cases _ _ Htu) as [<- | ->]; cbn [conforms].
    + now rewrite H, orb_true_r.
    + apply issubclass_object.
  - apply orb_true_iff in H as [H | H]; [auto |].
    destruct (issubclass_cases _ _ Htu) as [<- | ->]; cbn [conforms].
    + now rewrite H, orb_true_r.
    + apply issubclass_object.
Qed.

Lemma matching_is_upward_closed_witness :
  _check_type true (VObj "Flag" TBool []) (VType TInt) false = Ok true.
Proof.
  apply (matching_is_upward_closed true (VObj "Flag" TBool []) TBool TInt);
    reflexivity.
Defined.

(** ** More on the failing path *)

(** X20: [assert_satisfies] wants exactly two texts.  On a failing
    condition with a readable call site, the outcome is decided by the
    texts recovered: two texts give the value violation that quotes both,
    any other number gives the [ValueError] of the unpacking. *)
Theorem assert_satisfies_unpacks_two (stack : list frame) (v cond : value)
    (w : world) (lines : list string) (texts : list string) :
  truthy cond = false ->
  call_site stack w lines ->
  extract_arguments (generate_tokens lines) = Ok texts ->
  fst (assert_satisfies stack v cond w)
  = match texts with
    | [vname; vexpr] =>
        Raise (H2OValueError (MsgNotSatisfy vname v vexpr) (Some vname) 1)
    | _ => Raise ValueError
    end.
Proof.
  intros H Hsite Hargs; rewrite (assert_satisfies_fail stack v cond w H).
  destruct (retrieve_at_call_site
              (Frame this_filename "assert_satisfies" 146 :: stack) w lines
              Hsite) as [w' Hr].
  unfold bind; rewrite Hr, Hargs.
  destruct texts as [| a [| b [| c texts]]]; reflexivity.
Qed.

Lemma assert_satisfies_unpacks_two_witness :
  fst (assert_satisfies (script_stack 1) (VInt 7) (VBool false)
         (script_world (source_line "assert_satisfies(*pair)")))
  = Raise ValueError.
Proof.
  apply (assert_satisfies_unpacks_two (script_stack 1) (VInt 7) (VBool false)
           (script_world (source_line "assert_satisfies(*pair)"))
           [source_line "assert_satisfies(*pair)"] ["*pair"]
           eq_refl
           (ex_intro _ (Frame "script.py" "<module>" 1)
              (ex_intro _ (source_line "assert_satisfies(*pair)")
                 (conj eq_refl (conj eq_refl eq_refl))))
           eq_refl).
Defined.

(** X21: a failing check opens the caller's file.  When the value does
    not match and some frame of the stack is outside this file,
    [assert_is_type] calls [open] exactly once, on the file of the
    innermost such frame, whether or not that file can be read. *)
Theorem failing_assertion_opens_caller_file (PY2 : bool)
    (stack : list frame) (fr : frame) (var spec : value)
    (msg : option string) (skip : Z) (w : world) :
  _check_type PY2 var spec false = Ok false ->
  walk_up stack = Some fr ->
  snd (assert_is_type PY2 stack var spec msg skip w)
  = World (files w) (co_filename fr :: opened w).
Proof.
  intros H Hfr; rewrite (assert_is_type_fail PY2 stack var spec msg skip w H).
  rewrite snd_bind_lift_raise.
  rewrite (retrieve_opens_caller
             (Frame this_filename "assert_is_type" 78 :: stack) fr w Hfr).
  unfold bind, open_file, lift.
  destruct (files w (co_filename fr)) as [text |]; [| reflexivity].
  destruct (skip_lines _ _); reflexivity.
Qed.

Lemma failing_assertion_opens_caller_file_witness :
  snd (assert_is_type false interactive_stack (VStr "4") (VType TInt) None 1
         interactive_world)
  = World (files interactive_world) ["<stdin>"].
Proof.
  apply (failing_assertion_opens_caller_file false interactive_stack
           (Frame "<stdin>" "<module>" 1) (VStr "4") (VType TInt) None 1
           interactive_world eq_refl eq_refl).
Defined.

(** ** Python 2 against Python 3 *)

Lemma conforms_widens (s spec : value) :
  conforms false s spec = true -> conforms true s spec = true.
Proof.
  destruct spec; cbn [conforms]; auto.
  destruct t; cbn [conforms andb]; auto; rewrite orb_false_r;
    intros ->; reflexivity.
Qed.

Lemma check_type_widens_step (s a : value) :
  is_atomic a = true ->
  (_check_type false s a true = Ok true ->
   _check_type true s a true = Ok true) /\
  (_check_type false s a true = Ok false ->
   exists b, _check_type true s a true = Ok b).
Proof.
  intros Ha; split.
  - intros H; apply (check_type_atomic_true false s a true Ha) in H.
    apply (check_type_atomic_true true s a true Ha).
    now apply conforms_widens.
  - destruct (plain_or_raising s) as [Hs | (name & error & ->)].
    + intros _; rewrite (check_type_atomic true s a true Hs Ha); eauto.
    + destruct a; try discriminate Ha; [eauto |].
      rewrite !check_type_class.
      destruct t; cbn [pytype_eqb]; eauto;
        unfold _int_type, _str_type; cbn [isinstance];
        rewrite !instance_of_class_raising by reflexivity;
        destruct (String.eqb error "AttributeError"); eauto.
Qed.

(** X22: Python 2 only widens.  For a specification that is [None], a
    class, or a tuple of these, whatever the matcher accepts with the
    Python 3 classes it accepts with the Python 2 classes; the converse
    fails for a [long] against [int]. *)
Theorem python2_only_widens (s spec : value) :
  (is_atomic spec = true \/
   exists l, spec = VTuple l /\ Forall (fun a => is_atomic a = true) l) ->
  (_check_type false s spec false = Ok true ->
   _check_type true s spec false = Ok true) /\
  (forall z, _check_type true (VLong z) (VType TInt) false = Ok true /\
             _check_type false (VLong z) (VType TInt) false = Ok false).
Proof.
  intros Hspec; split; [| intros z; split; reflexivity].
  destruct Hspec as [Ha | (l & -> & Hl)].
  - intros H; apply (check_type_atomic_true false s spec false Ha) in H.
    apply (check_type_atomic_true true s spec false Ha).
    now apply conforms_widens.
  - rewrite !check_type_tuple.
    induction Hl as [| a l Ha Hl IH]; cbn [any_gen]; [discriminate |].
    destruct (check_type_widens_step s a Ha) as [Htrue Hfalse].
    destruct (_check_type false s a true) as [[|] |];
      [| | discriminate].
    + intros _; now rewrite (Htrue eq_refl).
    + intros H; destruct (Hfalse eq_refl) as [[|] ->]; auto.
Qed.

Lemma python2_only_widens_witness :
  _check_type true (VStr "a") (VTuple [VType TInt; VType TStr]) false
  = Ok true.
Proof.
  refine (proj1 (python2_only_widens (VStr "a")
                   (VTuple [VType TInt; VType TStr]) _) _).
  - right; exists [VType TInt; VType TStr].
    split; [reflexivity | repeat constructor].
  - reflexivity.
Defined.
